(** * Codenix IDE: the chat relay, the file store, the preview composer
      and the panel layout, embedded from the TypeScript sources.

    - [src/services/codenixService.ts]: [sendMessageToModel];
    - the application component ([App]): [handleContentChange],
      [handleSendMessage], [handleAddNewFile], [handleRenameFile],
      [previewContent] and the three resizer callbacks;
    - the type declarations: [FileNode], [ChatMessage],
      [CodenixServiceResponse].

    JavaScript strings are sequences of UTF-16 code units and are modelled
    as [list N]; React state is passed explicitly as a record; the network
    and the console are events of a small program tree ([IO]) that is run
    against an arbitrary environment. *)

From Stdlib Require Import QArith Lqa Ascii DecimalString.
From stdpp Require Import base list strings gmap.

Set Default Proof Using "Type".

(** ** JavaScript strings *)

Abbreviation jsstring := (list N).

(** The code units of an ASCII literal of the source. *)
Fixpoint str (s : string) : jsstring :=
  match s with
  | EmptyString => []
  | String a s' => N_of_ascii a :: str s'
  end.

Arguments str : simpl never.

Definition LF : jsstring := [10%N].
Definition DQUOTE : jsstring := [34%N].

(** ECMAScript WhiteSpace and LineTerminator code points, the ones
    [String.prototype.trim] strips. All of them are in the basic plane. *)
Definition is_white_space (c : N) : bool :=
  bool_decide (c ∈ [ 0x0009; 0x000A; 0x000B; 0x000C; 0x000D; 0x0020; 0x00A0;
                     0x1680; 0x2028; 0x2029; 0x202F; 0x205F; 0x3000; 0xFEFF ]%N)
  || ((0x2000 <=? c) && (c <=? 0x200A))%N.

Fixpoint trimStart (s : jsstring) : jsstring :=
  match s with
  | [] => []
  | c :: s' => if is_white_space c then trimStart s' else s
  end.

Definition trimEnd (s : jsstring) : jsstring := reverse (trimStart (reverse s)).

Definition trim (s : jsstring) : jsstring := trimEnd (trimStart s).

(** [!s] for a string: only the empty string is falsy. *)
Definition is_empty (s : jsstring) : bool :=
  match s with [] => true | _ => false end.

(** [Number.prototype.toString] on a non-negative integer. *)
Definition Number_toString (n : N) : jsstring :=
  str (NilEmpty.string_of_uint (N.to_uint n)).

(** ** JSON values, as [response.json()] and [JSON.stringify] see them *)

(** A JSON number literal evaluates to a double; only its truthiness is
    ever inspected here. *)
Inductive number :=
| Finite (q : Q)
| Infinity (negative : bool).

#[local] Unset Elimination Schemes.
Inductive json :=
| JNull
| JBool (b : bool)
| JNumber (n : number)
| JString (s : jsstring)
| JArray (l : list json)
| JObject (m : gmap jsstring json).
#[local] Set Elimination Schemes.

(** [ToBoolean] on a parsed value. *)
Definition ToBoolean (v : json) : bool :=
  match v with
  | JNull => false
  | JBool b => b
  | JNumber (Finite q) => negb (Qeq_bool q 0)
  | JNumber (Infinity _) => true
  | JString s => negb (is_empty s)
  | JArray _ => true
  | JObject _ => true
  end.

Definition answer_key : jsstring := str "answer".
Definition question_key : jsstring := str "question".

(** [v[key]] for a truthy parsed value [v] and a [key] that names no
    built-in property: an own data property of an object, [undefined]
    ([None]) on primitives and arrays. *)
Definition get (v : json) (key : jsstring) : option json :=
  match v with
  | JObject m => m !! key
  | _ => None
  end.

(** [v.answer] *)
Definition get_answer (v : json) : option json := get v answer_key.

(** [typeof x === 'string'], with [None] for [undefined]. *)
Definition typeof_string (x : option json) : option jsstring :=
  match x with
  | Some (JString s) => Some s
  | _ => None
  end.

(** ** The types of [types.ts] *)

Inductive FileType := file.

Record FileNode := mkFile {
  name : jsstring;
  content : jsstring;
  type : FileType;
}.

Inductive Sender := user | ai.

Record ChatMessage := mkMsg {
  sender : Sender;
  msg_content : jsstring;
  isError : option bool;   (* the optional field: [None] when absent *)
}.

Inductive CodenixServiceResponse :=
| Success (message : jsstring)     (* { success: true; message } *)
| Failure (error : jsstring).      (* { success: false; error } *)

(** ** Effects: fetch, console, exceptions *)

(** A thrown value, up to what the [catch] clause tells apart:
    [error instanceof Error] and then [error.message]. *)
Inductive Thrown :=
| ErrorObject (message : jsstring)
| OtherValue.

(** The [Response] fields the service reads. [json_body] is what
    [await response.json()] gives: a parsed value, or a rejection when the
    body is not JSON. *)
Record Response := mkResponse {
  ok : bool;
  status : N;
  json_body : Thrown + json;
}.

(** The second argument of [fetch]. [body] holds the value handed to
    [JSON.stringify]; the text on the wire is its serialisation. *)
Record RequestInit := mkInit {
  method : jsstring;
  headers : list (jsstring * jsstring);
  body : json;
}.

Inductive IO (A : Type) : Type :=
| Return (a : A)
| Throw (e : Thrown)
| Fetch (url : jsstring) (init : RequestInit) (k : Thrown + Response → IO A)
| ConsoleError (label : jsstring) (e : Thrown) (k : IO A).
Arguments Return {A} a.
Arguments Throw {A} e.
Arguments Fetch {A} url init k.
Arguments ConsoleError {A} label e k.

Fixpoint bind {A B} (p : IO A) (f : A → IO B) : IO B :=
  match p with
  | Return a => f a
  | Throw e => Throw e
  | Fetch url init k => Fetch url init (λ r, bind (k r) f)
  | ConsoleError l e k => ConsoleError l e (bind k f)
  end.

(** [try { body } catch (error) { handler }] *)
Fixpoint try_catch {A} (body : IO A) (handler : Thrown → IO A) : IO A :=
  match body with
  | Return a => Return a
  | Throw e => handler e
  | Fetch url init k => Fetch url init (λ r, try_catch (k r) handler)
  | ConsoleError l e k => ConsoleError l e (try_catch k handler)
  end.

Global Instance IO_ret : MRet IO := @Return.
Global Instance IO_bind : MBind IO := λ A B f p, bind p f.

(** [await fetch(url, init)]: a rejected promise throws at the [await]. *)
Definition fetch (url : jsstring) (init : RequestInit) : IO Response :=
  Fetch url init (λ r, match r with inl e => Throw e | inr resp => Return resp end).

(** [await response.json()] *)
Definition Response_json (r : Response) : IO json :=
  match json_body r with
  | inl e => Throw e
  | inr v => Return v
  end.

Definition console_error (label : jsstring) (e : Thrown) : IO () :=
  ConsoleError label e (Return ()).

(** What the environment observes of a run. *)
Inductive Event :=
| EvFetch (url : jsstring) (init : RequestInit)
| EvConsoleError (label : jsstring) (e : Thrown).

Definition is_fetch (ev : Event) : bool :=
  match ev with EvFetch _ _ => true | _ => false end.

(** The remote end: the outcome of the [n]-th request may depend on [n], so
    a retry could see a different answer. *)
Definition Network := nat → jsstring → RequestInit → Thrown + Response.

(** Runs a program against a network, extending the log of events in the
    order they happen. The result is [inl e] when [e] escapes uncaught. *)
Fixpoint run {A} (net : Network) (log : list Event) (p : IO A)
  : list Event * (Thrown + A) :=
  match p with
  | Return a => (log, inr a)
  | Throw e => (log, inl e)
  | Fetch url init k =>
      let n := length (filter is_fetch log) in
      run net (log ++ [EvFetch url init]) (k (net n url init))
  | ConsoleError l e k => run net (log ++ [EvConsoleError l e]) k
  end.

(** ** [services/codenixService.ts] *)

Section Service.

(** [ACTIVEPIECES_WEBHOOK_URL] is imported from [constants]; it is a fixed
    string whose value plays no role here. *)
Variable ACTIVEPIECES_WEBHOOK_URL : jsstring.

(** The template literal [systemPrompt]: the text before [${prompt}], the
    prompt, the text after it. *)
Definition prompt_header : jsstring :=
  str "You are Nix 1.5, an expert AI web developer. Your single purpose is to generate code based on the user's request."
  ++ LF ++ str "User's request: " ++ DQUOTE.

Definition prompt_footer : jsstring :=
  DQUOTE ++ LF
  ++ str "Respond ONLY with the raw code for the user's request. Do NOT add any conversational text, explanations, or markdown formatting.".

Definition systemPrompt (prompt : jsstring) : jsstring :=
  prompt_header ++ prompt ++ prompt_footer.

Definition placeholder_message : jsstring :=
  str "Received an empty or unexpected response from the model.".

Definition unknown_error_message : jsstring :=
  str "An unknown error occurred.".

Definition status_error_message (st : N) : jsstring :=
  str "Webhook failed with status: " ++ Number_toString st.

Definition request_init (prompt : jsstring) : RequestInit :=
  {| method := str "POST";
     headers := [(str "Content-Type", str "application/json")];
     body := JObject {[ question_key := JString (systemPrompt prompt) ]} |}.

Definition sendMessageToModel (prompt : jsstring) : IO CodenixServiceResponse :=
  try_catch
    (response ← fetch ACTIVEPIECES_WEBHOOK_URL (request_init prompt);
     if negb (ok response) then
       Throw (ErrorObject (status_error_message (status response)))
     else
       rawData ← Response_json response;
       if ToBoolean rawData then
         match typeof_string (get_answer rawData) with
         | Some answer => Return (Success (trim answer))
         | None => Return (Success placeholder_message)
         end
       else Return (Success placeholder_message))
    (λ error,
       console_error (str "Error calling Codenix service:") error;;
       Return (Failure (match error with
                        | ErrorObject message => message
                        | OtherValue => unknown_error_message
                        end))).

(** The error text of a failed request [o]: the message of the thrown
    [Error], the fixed text for any other thrown value, the status line for
    a response that is not ok. *)
Definition failure_text (o : Thrown + Response) : jsstring :=
  match o with
  | inl (ErrorObject message) => message
  | inl OtherValue => unknown_error_message
  | inr resp => status_error_message (status resp)
  end.

End Service.

(** ** JavaScript array and string methods used by the component *)

(** [Array.prototype.some] *)
Definition some {A} (P : A → Prop) `{!∀ x, Decision (P x)} (l : list A) : bool :=
  bool_decide (Exists P l).

(** [Array.prototype.find]: the first element that satisfies [P]. *)
Fixpoint find {A} (P : A → Prop) `{!∀ x, Decision (P x)} (l : list A) : option A :=
  match l with
  | [] => None
  | x :: l' => if decide (P x) then Some x else find P l'
  end.

(** [Array.prototype.join] *)
Fixpoint join (sep : jsstring) (l : list jsstring) : jsstring :=
  match l with
  | [] => []
  | [x] => x
  | x :: l' => x ++ sep ++ join sep l'
  end.

(** [String.prototype.endsWith] *)
Definition endsWith (s suffix : jsstring) : bool :=
  bool_decide (suffix `suffix_of` s).

(** [String.prototype.indexOf]: the position of the first occurrence,
    [None] where JavaScript gives [-1]. *)
Fixpoint indexOf (s pat : jsstring) : option nat :=
  if bool_decide (pat `prefix_of` s) then Some 0
  else match s with
       | [] => None
       | _ :: s' => S <$> indexOf s' pat
       end.

(** [String.prototype.includes] *)
Definition includes (s pat : jsstring) : bool :=
  match indexOf s pat with Some _ => true | None => false end.

Definition DOLLAR : N := 36.
Definition BACKTICK : N := 96.
Definition AMPERSAND : N := 38.
Definition APOSTROPHE : N := 39.

(** ECMAScript [GetSubstitution] for a string pattern, which has no
    captures: in the replacement text [$$] stands for a dollar sign, [$&]
    for the matched text, [$`] for the text before the match and [$'] for
    the text after it. A dollar sign followed by digits or by [<] refers
    to a capture; without captures it is copied as it is, like every other
    code unit. *)
Fixpoint GetSubstitution (matched before after template : jsstring) : jsstring :=
  match template with
  | [] => []
  | c :: rest =>
      if (c =? DOLLAR)%N then
        match rest with
        | [] => [c]
        | d :: rest' =>
            if (d =? DOLLAR)%N then
              DOLLAR :: GetSubstitution matched before after rest'
            else if (d =? BACKTICK)%N then
              before ++ GetSubstitution matched before after rest'
            else if (d =? AMPERSAND)%N then
              matched ++ GetSubstitution matched before after rest'
            else if (d =? APOSTROPHE)%N then
              after ++ GetSubstitution matched before after rest'
            else c :: GetSubstitution matched before after rest
        end
      else c :: GetSubstitution matched before after rest
  end.

(** [String.prototype.replace] with a string pattern and a string
    replacement: only the first occurrence is replaced, and the replacement
    goes through [GetSubstitution]. *)
Definition replace (s pat replacement : jsstring) : jsstring :=
  match indexOf s pat with
  | None => s
  | Some pos =>
      let before := take pos s in
      let after := drop (pos + length pat) s in
      before ++ GetSubstitution pat before after replacement ++ after
  end.

(** [Math.max] on two finite numbers. Pixel sizes and mouse coordinates
    are finite JavaScript numbers; they are taken as rationals, rounding
    left out. *)
Definition Math_max (a b : Q) : Q := if Qle_bool a b then b else a.

(** ** The state of the [App] component *)

Inductive Tab := preview | chat.

(** One field per [useState] cell the modelled handlers read or write
    (the console log list, the preview key and the full-screen flag are
    not touched by them). [alerts] records the texts shown by
    [window.alert], oldest first. *)
Record App := mkApp {
  message : jsstring;
  files : list FileNode;
  activeFile : option jsstring;
  isLoading : bool;
  renamingFile : option jsstring;
  chatHistory : list ChatMessage;
  activeTab : Tab;
  explorerWidth : Q;
  rightPanelWidth : Q;
  consoleHeight : Q;
  isConsoleVisible : bool;
  alerts : list jsstring;
}.

Definition setMessage (v : jsstring) (s : App) : App :=
  mkApp v (files s) (activeFile s) (isLoading s) (renamingFile s) (chatHistory s)
    (activeTab s) (explorerWidth s) (rightPanelWidth s) (consoleHeight s)
    (isConsoleVisible s) (alerts s).
Definition setFiles (v : list FileNode) (s : App) : App :=
  mkApp (message s) v (activeFile s) (isLoading s) (renamingFile s) (chatHistory s)
    (activeTab s) (explorerWidth s) (rightPanelWidth s) (consoleHeight s)
    (isConsoleVisible s) (alerts s).
Definition setActiveFile (v : option jsstring) (s : App) : App :=
  mkApp (message s) (files s) v (isLoading s) (renamingFile s) (chatHistory s)
    (activeTab s) (explorerWidth s) (rightPanelWidth s) (consoleHeight s)
    (isConsoleVisible s) (alerts s).
Definition setIsLoading (v : bool) (s : App) : App :=
  mkApp (message s) (files s) (activeFile s) v (renamingFile s) (chatHistory s)
    (activeTab s) (explorerWidth s) (rightPanelWidth s) (consoleHeight s)
    (isConsoleVisible s) (alerts s).
Definition setRenamingFile (v : option jsstring) (s : App) : App :=
  mkApp (message s) (files s) (activeFile s) (isLoading s) v (chatHistory s)
    (activeTab s) (explorerWidth s) (rightPanelWidth s) (consoleHeight s)
    (isConsoleVisible s) (alerts s).
Definition setChatHistory (v : list ChatMessage) (s : App) : App :=
  mkApp (message s) (files s) (activeFile s) (isLoading s) (renamingFile s) v
    (activeTab s) (explorerWidth s) (rightPanelWidth s) (consoleHeight s)
    (isConsoleVisible s) (alerts s).
Definition setActiveTab (v : Tab) (s : App) : App :=
  mkApp (message s) (files s) (activeFile s) (isLoading s) (renamingFile s) (chatHistory s)
    v (explorerWidth s) (rightPanelWidth s) (consoleHeight s)
    (isConsoleVisible s) (alerts s).
Definition setExplorerWidth (v : Q) (s : App) : App :=
  mkApp (message s) (files s) (activeFile s) (isLoading s) (renamingFile s) (chatHistory s)
    (activeTab s) v (rightPanelWidth s) (consoleHeight s)
    (isConsoleVisible s) (alerts s).
Definition setRightPanelWidth (v : Q) (s : App) : App :=
  mkApp (message s) (files s) (activeFile s) (isLoading s) (renamingFile s) (chatHistory s)
    (activeTab s) (explorerWidth s) v (consoleHeight s)
    (isConsoleVisible s) (alerts s).
Definition setConsoleHeight (v : Q) (s : App) : App :=
  mkApp (message s) (files s) (activeFile s) (isLoading s) (renamingFile s) (chatHistory s)
    (activeTab s) (explorerWidth s) (rightPanelWidth s) v
    (isConsoleVisible s) (alerts s).
Definition setIsConsoleVisible (v : bool) (s : App) : App :=
  mkApp (message s) (files s) (activeFile s) (isLoading s) (renamingFile s) (chatHistory s)
    (activeTab s) (explorerWidth s) (rightPanelWidth s) (consoleHeight s)
    v (alerts s).
(** [alert(text)] *)
Definition alert (text : jsstring) (s : App) : App :=
  mkApp (message s) (files s) (activeFile s) (isLoading s) (renamingFile s) (chatHistory s)
    (activeTab s) (explorerWidth s) (rightPanelWidth s) (consoleHeight s)
    (isConsoleVisible s) (alerts s ++ [text]).

Definition greeting : jsstring :=
  str "Hello! I'm Nix 1.5. Describe the website you want to build, or ask me anything.".

(** The initial values of the [useState] cells; [innerWidth] is
    [window.innerWidth] when the component mounts. *)
Definition initial (innerWidth : Q) : App :=
  {| message := [];
     files := [];
     activeFile := None;
     isLoading := false;
     renamingFile := None;
     chatHistory := [mkMsg ai greeting None];
     activeTab := chat;
     explorerWidth := 256;
     rightPanelWidth := innerWidth * 0.33;
     consoleHeight := 0;
     isConsoleVisible := false;
     alerts := [] |}.

Definition content_name : jsstring := str "content".

(** ** Handlers of the [App] component *)

Section Handlers.

Variable ACTIVEPIECES_WEBHOOK_URL : jsstring.

Definition handleFileSelect (fileName : jsstring) (s : App) : App :=
  setActiveFile (Some fileName) s.

Definition handleContentChange (newContent : jsstring) (s : App) : App :=
  match activeFile s with
  | None => s
  | Some active =>
      if is_empty active then s
      else
        setFiles ((λ file, if decide (name file = active)
                           then mkFile (name file) newContent (type file)
                           else file) <$> files s) s
  end.

(** The part of [handleSendMessage] that runs once the awaited response
    is there. [setChatHistory] and [setFiles] are given updater
    functions, so they act on the state of that moment, [s]. *)
Definition handleSendMessage_resume (response : CodenixServiceResponse) (s : App) : App :=
  let s := setIsLoading false s in
  match response with
  | Failure error =>
      let s := setChatHistory (chatHistory s ++ [mkMsg ai error (Some true)]) s in
      let s := setIsConsoleVisible true s in
      let s := setConsoleHeight 192 s in
      setActiveTab chat s
  | Success message =>
      let aiResponseContent := message in
      let s := setChatHistory (chatHistory s ++ [mkMsg ai aiResponseContent None]) s in
      let contentFile := mkFile content_name aiResponseContent file in
      let s :=
        let otherFiles := filter (λ f, name f ≠ content_name) (files s) in
        setFiles (otherFiles ++ [contentFile]) s in
      let s := setActiveFile (Some content_name) s in
      setActiveTab preview s
  end.

Definition handleSendMessage (s : App) : IO App :=
  if is_empty (trim (message s)) then Return s
  else
    let userMessage := mkMsg user (message s) None in
    let s1 := setChatHistory (chatHistory s ++ [userMessage]) s in
    let s1 := setMessage [] s1 in
    let s1 := setIsLoading true s1 in
    response ← sendMessageToModel ACTIVEPIECES_WEBHOOK_URL (message s);
    Return (handleSendMessage_resume response s1).

Definition exists_alert (fileName : jsstring) : jsstring :=
  str "A file named " ++ DQUOTE ++ fileName ++ DQUOTE ++ str " already exists.".

(** [answer] is what [window.prompt] returned: [None] for [null]. *)
Definition handleAddNewFile (answer : option jsstring) (s : App) : App :=
  match answer with
  | None => s
  | Some fileName =>
      if is_empty fileName then s
      else if some (λ f, name f = fileName) (files s) then
        alert (exists_alert fileName) s
      else
        let newFile := mkFile fileName [] file in
        let s := setFiles (files s ++ [newFile]) s in
        setActiveFile (Some fileName) s
  end.

Definition handleRenameFile (oldName newName : jsstring) (s : App) : App :=
  let trimmedNewName := trim newName in
  if is_empty trimmedNewName || bool_decide (trimmedNewName = oldName) then
    setRenamingFile None s
  else if some (λ f, name f = trimmedNewName) (files s) then
    alert (exists_alert trimmedNewName) s
  else
    let s' := setFiles ((λ f, if decide (name f = oldName)
                              then mkFile trimmedNewName (content f) (type f)
                              else f) <$> files s) s in
    let s' := if bool_decide (activeFile s = Some oldName)
              then setActiveFile (Some trimmedNewName) s' else s' in
    setRenamingFile None s'.

(** The local constants of the [previewContent] memo. *)
Definition htmlFile (files : list FileNode) : option FileNode :=
  match find (λ f, name f = content_name) files with
  | Some f => Some f
  | None => find (λ f, endsWith (name f) (str ".html") = true) files
  end.

Definition cssFiles (files : list FileNode) : list FileNode :=
  filter (λ f, endsWith (name f) (str ".css") = true) files.

Definition jsFiles (files : list FileNode) : list FileNode :=
  filter (λ f, endsWith (name f) (str ".js") = true) files.

Definition style_element (f : FileNode) : jsstring :=
  str "<style>" ++ content f ++ str "</style>".

Definition script_element (f : FileNode) : jsstring :=
  str "<script type=" ++ DQUOTE ++ str "module" ++ DQUOTE ++ str ">"
  ++ content f ++ str "</script>".

Definition styles (files : list FileNode) : jsstring :=
  join LF (style_element <$> cssFiles files).

Definition scripts (files : list FileNode) : jsstring :=
  join LF (script_element <$> jsFiles files).

Definition no_html_found : jsstring := str "<h1>No HTML file found to preview.</h1>".

Definition previewContent (files : list FileNode) : jsstring :=
  match htmlFile files with
  | None => no_html_found
  | Some htmlFile =>
      let finalHtml := content htmlFile in
      let finalHtml :=
        if includes finalHtml (str "</head>")
        then replace finalHtml (str "</head>") (styles files ++ LF ++ str "</head>")
        else finalHtml ++ styles files in
      let finalHtml :=
        if includes finalHtml (str "</body>")
        then replace finalHtml (str "</body>") (scripts files ++ LF ++ str "</body>")
        else finalHtml ++ scripts files in
      finalHtml
  end.

Definition toggleConsole (s : App) : App :=
  let prev := isConsoleVisible s in
  let s := setConsoleHeight (if prev then 0 else 192) s in
  setIsConsoleVisible (negb prev) s.

(** The three draggable dividers. Each [mousemove] of a drag calls
    [onDrag dx dy] with the distance from where the button went down. *)
Inductive Divider := ExplorerDivider | RightPanelDivider | ConsoleDivider.

#[global] Instance Divider_eq_dec : EqDecision Divider.
Proof. solve_decision. Defined.

Definition onDrag (d : Divider) (dx dy : Q) (s : App) : App :=
  match d with
  | ExplorerDivider => setExplorerWidth (Math_max 200 (explorerWidth s + dx)) s
  | RightPanelDivider => setRightPanelWidth (Math_max 200 (rightPanelWidth s - dx)) s
  | ConsoleDivider => setConsoleHeight (Math_max 0 (consoleHeight s - dy)) s
  end.

Definition drags (ds : list (Divider * Q * Q)) (s : App) : App :=
  foldl (λ s '(d, dx, dy), onDrag d dx dy s) s ds.

End Handlers.

(** The user actions and the arrival of a response, as far as they touch
    the file store. *)
Inductive Action :=
| Select (fileName : jsstring)
| Edit (newContent : jsstring)
| AddFile (answer : option jsstring)
| Rename (oldName newName : jsstring)
| Respond (response : CodenixServiceResponse).

Definition act (s : App) (a : Action) : App :=
  match a with
  | Select fileName => handleFileSelect fileName s
  | Edit newContent => handleContentChange newContent s
  | AddFile answer => handleAddNewFile answer s
  | Rename oldName newName => handleRenameFile oldName newName s
  | Respond response => handleSendMessage_resume response s
  end.

(** The size a divider controls, its lower bound, and whether a
    sequence of drag steps moves it. *)
Definition dimension (d : Divider) (s : App) : Q :=
  match d with
  | ExplorerDivider => explorerWidth s
  | RightPanelDivider => rightPanelWidth s
  | ConsoleDivider => consoleHeight s
  end.

Definition lower_bound (d : Divider) : Q :=
  match d with
  | ExplorerDivider => 200
  | RightPanelDivider => 200
  | ConsoleDivider => 0
  end.

Definition dragged (d : Divider) (ds : list (Divider * Q * Q)) : Prop :=
  ∃ dx dy, (d, dx, dy) ∈ ds.

(** What the preview is meant to be: [text] and a line break put in
    front of the first occurrence of [tag] in [doc], or [text] put at the
    end of [doc] when [tag] does not occur. *)
Definition insert_before (tag doc text : jsstring) : jsstring :=
  match indexOf doc tag with
  | Some pos => take pos doc ++ text ++ LF ++ drop pos doc
  | None => doc ++ text
  end.

(** A project whose script holds the usual pattern for escaping a regular
    expression. *)
Definition escape_js : FileNode :=
  mkFile (str "app.js") (str "const esc = s => s.replace(/[.*+?]/g, '\\$&');") file.

Definition escape_project : list FileNode :=
  [ mkFile (str "index.html") (str "<html><head></head><body><p>x</p></body></html>") file;
    escape_js ].

(** A request fails when [fetch] rejects or the response is not ok. *)
Definition fetch_fails (o : Thrown + Response) : Prop :=
  match o with
  | inl _ => True
  | inr resp => ok resp = false
  end.

(** ** Sample data *)

Definition sample_url : jsstring := str "https://hooks.example.test/webhook".

(** The network is down: [fetch] rejects with a [TypeError]. *)
Definition net_down : Network :=
  λ _ _ _, inl (ErrorObject (str "Failed to fetch")).

(** [fetch] rejects with an [Error] whose message is empty. *)
Definition net_silent : Network :=
  λ _ _ _, inl (ErrorObject []).

(** The webhook answers 200 with the body [{ "answer": "  <p>hi</p>\n" }]. *)
Definition net_answers : Network :=
  λ _ _ _, inr {| ok := true; status := 200;
                  json_body := inr (JObject {[ answer_key := JString (str "  <p>hi</p>" ++ LF) ]}) |}.

(** The webhook answers 200 with the body [{ "answer": 42 }]. *)
Definition net_number : Network :=
  λ _ _ _, inr {| ok := true; status := 200;
                  json_body := inr (JObject {[ answer_key := JNumber (Finite 42) ]}) |}.

(** A state in which the user has typed a request. *)
Definition typing (text : jsstring) (fs : list FileNode) : App :=
  setFiles fs (setMessage text (initial 1280)).

Definition sample_files : list FileNode :=
  [ mkFile (str "index.html") (str "<html><head></head><body></body></html>") file;
    mkFile (str "style.css") (str "p { color: red }") file;
    mkFile content_name (str "<p>old</p>") file ].

(** ** More of the component *)

(** The part of [handleSendMessage] that runs before the request goes
    out, for a message that is not blank. *)
Definition handleSendMessage_begin (s : App) : App :=
  let userMessage := mkMsg user (message s) None in
  let s1 := setChatHistory (chatHistory s ++ [userMessage]) s in
  let s1 := setMessage [] s1 in
  setIsLoading true s1.

(** The chat input, the send button and the arrival of a response.
    [pending] holds the prompts of the calls of [handleSendMessage] that are
    suspended at their [await], oldest first. The component is rendered
    again after every event, so each handler reads the current state. *)
Record Session := mkSession {
  app : App;
  pending : list jsstring;
}.

Inductive Input :=
| TypeText (text : jsstring)                    (* onChange of the input *)
| PressEnter                                    (* onKeyDown with [Enter] *)
| ClickSend                                     (* onClick of the button *)
| Arrive (response : CodenixServiceResponse).   (* the oldest call resumes *)

(** A call of [handleSendMessage], up to its [await]. *)
Definition start_send (σ : Session) : Session :=
  if is_empty (trim (message (app σ))) then σ
  else mkSession (handleSendMessage_begin (app σ)) (pending σ ++ [message (app σ)]).

Definition session_step (σ : Session) (i : Input) : Session :=
  match i with
  | TypeText text => mkSession (setMessage text (app σ)) (pending σ)
  | PressEnter =>
      (* e.key === 'Enter' && !isLoading && handleSendMessage() *)
      if isLoading (app σ) then σ else start_send σ
  | ClickSend =>
      (* disabled={isLoading || !message.trim()} *)
      if isLoading (app σ) || is_empty (trim (message (app σ))) then σ
      else start_send σ
  | Arrive response =>
      match pending σ with
      | [] => σ
      | _ :: rest => mkSession (handleSendMessage_resume response (app σ)) rest
      end
  end.

(** [x || ''] for a string that may be [undefined]. *)
Definition or_empty (x : option jsstring) : jsstring :=
  match x with
  | Some c => if is_empty c then [] else c
  | None => []
  end.

(** [files.find((file) => file.name === activeFile)?.content || ''] *)
Definition activeFileContent (s : App) : jsstring :=
  or_empty (content <$> find (λ f, activeFile s = Some (name f)) (files s)).

(** What the explorer lets the user do: only files of the store can be
    selected or renamed. *)
Definition offered (s : App) (a : Action) : Prop :=
  match a with
  | Select fileName => fileName ∈ name <$> files s
  | Rename oldName _ => oldName ∈ name <$> files s
  | _ => True
  end.

Inductive reachable (innerWidth : Q) : App → Prop :=
| reachable_initial : reachable innerWidth (initial innerWidth)
| reachable_act s a :
    reachable innerWidth s → offered s a → reachable innerWidth (act s a).

(** The [language] memo of [CodeEditor]. *)
Inductive Language := html | css | javascript | unknown.

Definition DOT : N := 46.

(** [String.prototype.split] with a separator of one code unit. *)
Fixpoint split (s : jsstring) (sep : N) : list jsstring :=
  match s with
  | [] => [[]]
  | c :: s' =>
      if (c =? sep)%N then [] :: split s' sep
      else match split s' sep with
           | seg :: segs => (c :: seg) :: segs
           | [] => [[c]]
           end
  end.

(** [fileName] is [string | null]; [pop] gives the last segment. *)
Definition language (fileName : option jsstring) : Language :=
  match fileName with
  | None => unknown
  | Some fileName =>
      if is_empty fileName then unknown
      else
        let extension := last (split fileName DOT) in
        if bool_decide (extension = Some (str "js") ∨ extension = Some (str "jsx")
                        ∨ extension = Some (str "ts") ∨ extension = Some (str "tsx"))
        then javascript
        else if bool_decide (extension = Some (str "css")) then css
        else if bool_decide (extension = Some (str "html")) then html
        else unknown
  end.

(** [s.replace(/c/g, replacement)] for a pattern that is one literal code
    unit and a replacement without a dollar sign. *)
Definition replace_every (c : N) (replacement s : jsstring) : jsstring :=
  s ≫= λ x, if (x =? c)%N then replacement else [x].

Definition LT : N := 60.
Definition GT : N := 62.

(** [code.replace(/&/g, '&amp;').replace(/</g, '&lt;').replace(/>/g, '&gt;')],
    which is what [highlightSyntax] returns for the language [unknown] and
    what it starts from for the others. *)
Definition escapeMarkup (code : jsstring) : jsstring :=
  replace_every GT (str "&gt;")
    (replace_every LT (str "&lt;")
       (replace_every AMPERSAND (str "&amp;") code)).

(** What one code unit becomes under [escapeMarkup]. *)
Definition escape_unit (c : N) : jsstring :=
  if (c =? AMPERSAND)%N then str "&amp;"
  else if (c =? LT)%N then str "&lt;"
  else if (c =? GT)%N then str "&gt;"
  else [c].

(** [Resizer]: the button goes down at [(startX, startY)]; every
    [mousemove] at [(clientX, clientY)] calls [onDrag] with the distance
    from that point. *)
Definition handleMouseMove (d : Divider) (startX startY : Q) (s : App)
    (client : Q * Q) : App :=
  let dx := (client.1 - startX)%Q in
  let dy := (client.2 - startY)%Q in
  onDrag d dx dy s.

Definition gesture (d : Divider) (startX startY : Q) (moves : list (Q * Q))
    (s : App) : App :=
  foldl (handleMouseMove d startX startY) s moves.

Definition Qsum (l : list Q) : Q := foldr Qplus 0%Q l.

(** The webhook answers 200 with a body that is not JSON. *)
Definition net_garbled : Network :=
  λ _ _ _, inr {| ok := true; status := 200;
                  json_body := inl (ErrorObject (str "Unexpected token < in JSON")) |}.

(** The webhook answers 200 with the body [{ "answer": " \n" }]. *)
Definition net_blank : Network :=
  λ _ _ _, inr {| ok := true; status := 200;
                  json_body := inr (JObject {[ answer_key := JString ([32%N] ++ LF) ]}) |}.

(** What holds of a session at every moment: a call is suspended exactly
    while [isLoading] is set, and there is never more than one; after the
    greeting the transcript is a run of question and reply pairs, followed
    by the open question while a call is suspended. *)
Definition session_ok (σ : Session) : Prop :=
  length (pending σ) = (if isLoading (app σ) then 1%nat else 0%nat)
  ∧ ∃ n : nat,
      sender <$> chatHistory (app σ)
      = ai :: mjoin (replicate n [user; ai]) ++ (if isLoading (app σ) then [user] else []).

(** * Properties *)

(** ** Strings *)

Lemma trimStart_spec (s : jsstring) :
  ∃ l, s = l ++ trimStart s
       ∧ Forall (λ c, is_white_space c = true) l
       ∧ (∀ c, head (trimStart s) = Some c → is_white_space c = false).
Proof.
  induction s as [|c s (l & Hs & Hl & Hh)]; simpl.
  - exists []. split_and!; [done | constructor | discriminate].
  - destruct (is_white_space c) eqn:Hc.
    + exists (c :: l). split_and!; [by rewrite Hs at 1 | by constructor | done].
    + exists []. split_and!; [done | constructor | naive_solver].
Qed.

(** [trim s] is [s] without a leading and a trailing run of white space,
    and neither begins nor ends with white space. *)
Lemma trim_spec (s : jsstring) :
  ∃ l r, s = l ++ trim s ++ r
         ∧ Forall (λ c, is_white_space c = true) l
         ∧ Forall (λ c, is_white_space c = true) r
         ∧ (∀ c, head (trim s) = Some c → is_white_space c = false)
         ∧ (∀ c, last (trim s) = Some c → is_white_space c = false).
Proof.
  destruct (trimStart_spec s) as (l & Hs & Hl & Hh).
  destruct (trimStart_spec (reverse (trimStart s))) as (r & Hr & Hrw & Hrh).
  assert (Hmid : trimStart s = trim s ++ reverse r).
  { unfold trim, trimEnd. rewrite <- reverse_app, <- Hr. by rewrite reverse_involutive. }
  exists l, (reverse r). split_and!.
  - by rewrite <- Hmid.
  - done.
  - by apply Forall_reverse.
  - intros c Hc. apply Hh. rewrite Hmid.
    destruct (trim s); [discriminate | done].
  - intros c Hc. apply Hrh. unfold trim, trimEnd in Hc.
    by rewrite last_reverse in Hc.
Qed.

Lemma str_nonempty a s : str (String a s) ≠ [].
Proof. discriminate. Qed.

(** ** The service *)

Section ServiceFacts.

Variable URL : jsstring.

Ltac run_service net prompt :=
  unfold sendMessageToModel, fetch, Response_json, console_error,
    mbind, IO_bind, mret, IO_ret; simpl;
  destruct (net 0%nat URL (request_init prompt)) as [[?|]|[[] ? [[?|]|?]]] eqn:Hnet;
  simpl.

(** The events of a call, whatever the network does: one [fetch], then
    one [console.error] when the call fails. *)
Lemma sendMessageToModel_events (net : Network) (prompt : jsstring) :
  filter is_fetch (run net [] (sendMessageToModel URL prompt)).1
  = [EvFetch URL (request_init prompt)].
Proof.
  run_service net prompt; try done.
  destruct (ToBoolean _); [destruct (typeof_string _)|]; done.
Qed.

(** The call returns; nothing thrown inside escapes. *)
Lemma sendMessageToModel_returns (net : Network) (prompt : jsstring) :
  ∃ r, (run net [] (sendMessageToModel URL prompt)).2 = inr r.
Proof.
  run_service net prompt; eauto.
  destruct (ToBoolean _); [destruct (typeof_string _)|]; eauto.
Qed.

Lemma sendMessageToModel_failure (net : Network) (prompt : jsstring) :
  match net 0%nat URL (request_init prompt) with
  | inl _ => True
  | inr resp => ok resp = false
  end →
  (run net [] (sendMessageToModel URL prompt)).2
  = inr (Failure (failure_text (net 0%nat URL (request_init prompt)))).
Proof. run_service net prompt; done. Qed.

Lemma sendMessageToModel_success (net : Network) (prompt : jsstring) resp rawData :
  net 0%nat URL (request_init prompt) = inr resp →
  ok resp = true →
  json_body resp = inr rawData →
  (run net [] (sendMessageToModel URL prompt)).2
  = inr (Success (if ToBoolean rawData
                  then default placeholder_message (trim <$> typeof_string (get_answer rawData))
                  else placeholder_message)).
Proof.
  intros Hresp Hok Hbody. run_service net prompt; simplify_eq/=.
  destruct (ToBoolean _); [destruct (typeof_string _)|]; done.
Qed.

End ServiceFacts.

(** ** The chat relay *)

Lemma run_bind {A B} (net : Network) (p : IO A) (f : A → IO B) (log : list Event) :
  run net log (bind p f)
  = match run net log p with
    | (log', inr a) => run net log' (f a)
    | (log', inl e) => (log', inl e)
    end.
Proof.
  revert log. induction p as [a|e|url init k IH|l e k IH]; intros log; simpl; auto.
Qed.

Lemma falsy_no_answer (rawData : json) :
  ToBoolean rawData = false → get_answer rawData = None.
Proof. by destruct rawData. Qed.

(** A blank message sends nothing and changes nothing. *)
Lemma handleSendMessage_blank (URL : jsstring) (net : Network) (s : App) :
  is_empty (trim (message s)) = true →
  run net [] (handleSendMessage URL s) = ([], inr s).
Proof. intros Hblank. unfold handleSendMessage. by rewrite Hblank. Qed.

(** Otherwise the handler records the user's message, calls the service
    and resumes with its response. *)
Lemma handleSendMessage_run (URL : jsstring) (net : Network) (s : App) r :
  is_empty (trim (message s)) = false →
  (run net [] (sendMessageToModel URL (message s))).2 = inr r →
  (run net [] (handleSendMessage URL s)).2
  = inr (handleSendMessage_resume r
           (setIsLoading true (setMessage []
              (setChatHistory (chatHistory s ++ [mkMsg user (message s) None]) s)))).
Proof.
  intros Hblank Hr. unfold handleSendMessage. rewrite Hblank.
  unfold mbind, IO_bind. rewrite run_bind.
  destruct (run net [] (sendMessageToModel URL (message s))) as [log' [e|r']];
    simpl in *; by simplify_eq.
Qed.

(** The template literal, spelled out. *)
Lemma systemPrompt_text (prompt : jsstring) :
  systemPrompt prompt
  = str "You are Nix 1.5, an expert AI web developer. Your single purpose is to generate code based on the user's request."
    ++ LF ++ str "User's request: " ++ DQUOTE ++ prompt ++ DQUOTE ++ LF
    ++ str "Respond ONLY with the raw code for the user's request. Do NOT add any conversational text, explanations, or markdown formatting.".
Proof.
  unfold systemPrompt, prompt_header, prompt_footer.
  by rewrite <- !(assoc_L (++)).
Qed.

(** C1 (amended): for every user message, [sendMessageToModel] issues
    exactly one [fetch], a POST to the fixed webhook URL whose JSON body is
    [{ "question": q }], where [q] is the fixed instruction text with the
    message embedded in it, between double quotes after [User's request: ];
    this holds whatever the outcome of the request, so nothing is
    retried. *)
Theorem sendMessageToModel_single_post (URL : jsstring) (net : Network)
    (prompt : jsstring) :
  filter is_fetch (run net [] (sendMessageToModel URL prompt)).1
  = [EvFetch URL
       {| method := str "POST";
          headers := [(str "Content-Type", str "application/json")];
          body := JObject {[ question_key := JString
            (str "You are Nix 1.5, an expert AI web developer. Your single purpose is to generate code based on the user's request."
             ++ LF ++ str "User's request: " ++ DQUOTE ++ prompt ++ DQUOTE ++ LF
             ++ str "Respond ONLY with the raw code for the user's request. Do NOT add any conversational text, explanations, or markdown formatting.") ]} |}].
Proof.
  rewrite sendMessageToModel_events. unfold request_init.
  rewrite systemPrompt_text. reflexivity.
Qed.

(** C1, as stated, fails: the [question] sent for the message [hi] is not
    the message itself. *)
Lemma sendMessageToModel_question_is_not_the_message :
  ¬ ∃ init, filter is_fetch (run net_down [] (sendMessageToModel sample_url (str "hi"))).1
            = [EvFetch sample_url init]
            ∧ get (body init) question_key = Some (JString (str "hi")).
Proof.
  intros (init & Hev & Hbody). rewrite sendMessageToModel_events in Hev.
  assert (init = request_init (str "hi")) as -> by congruence.
  cbn [get body request_init] in Hbody.
  rewrite lookup_singleton_eq in Hbody.
  assert (Hlen : length (systemPrompt (str "hi")) = length (str "hi")) by congruence.
  vm_compute in Hlen. discriminate Hlen.
Qed.

(** C3: when the response is ok and its parsed body has a string field
    [answer], the call succeeds with [answer] stripped of leading and
    trailing white space; when the response is ok and [answer] is absent or
    not a string, the call still succeeds, with the fixed placeholder
    text. *)
Theorem sendMessageToModel_ok_response (URL : jsstring) (net : Network)
    (prompt : jsstring) (resp : Response) (rawData : json) :
  net 0%nat URL (request_init prompt) = inr resp →
  ok resp = true →
  json_body resp = inr rawData →
  (run net [] (sendMessageToModel URL prompt)).2
  = inr (Success match get_answer rawData with
                 | Some (JString answer) => trim answer
                 | _ => placeholder_message
                 end)
  ∧ ∀ answer : jsstring, ∃ l r,
      answer = l ++ trim answer ++ r
      ∧ Forall (λ c, is_white_space c = true) l
      ∧ Forall (λ c, is_white_space c = true) r
      ∧ (∀ c, head (trim answer) = Some c → is_white_space c = false)
      ∧ (∀ c, last (trim answer) = Some c → is_white_space c = false).
Proof.
  intros Hresp Hok Hbody. split; [|apply trim_spec].
  rewrite (sendMessageToModel_success URL net prompt resp rawData) by done.
  destruct (ToBoolean rawData) eqn:Htruthy.
  - by destruct (get_answer rawData) as [[]|].
  - by rewrite falsy_no_answer.
Qed.

Lemma sendMessageToModel_ok_response_witness :
  net_answers 0%nat sample_url (request_init (str "hi"))
  = inr {| ok := true; status := 200;
           json_body := inr (JObject {[ answer_key := JString (str "  <p>hi</p>" ++ LF) ]}) |}
  ∧ (run net_answers [] (sendMessageToModel sample_url (str "hi"))).2
    = inr (Success (str "<p>hi</p>")).
Proof.
  split; [reflexivity|].
  etransitivity;
    [exact (proj1 (sendMessageToModel_ok_response sample_url net_answers (str "hi")
                     _ _ eq_refl eq_refl eq_refl))|].
  vm_compute. reflexivity.
Defined.

(** A body whose [answer] is a number gives the placeholder text. *)
Example sendMessageToModel_number_answer :
  (run net_number [] (sendMessageToModel sample_url (str "hi"))).2
  = inr (Success placeholder_message).
Proof. reflexivity. Qed.

(** C8 (amended): whatever the network does (rejected request, status
    that is not ok, body that is not JSON), [sendMessageToModel] throws
    nothing to its caller and returns a success or a failure. The error
    text of a failure is the status line, which is not empty, when the
    response is not ok; otherwise it is the text of what [fetch] or
    [response.json()] threw: the fixed text, which is not empty, for a
    value that is not an [Error], and the message of an [Error] as it is,
    so it is empty exactly when that message is. *)
Theorem sendMessageToModel_total (URL : jsstring) (net : Network) (prompt : jsstring) :
  match (run net [] (sendMessageToModel URL prompt)).2 with
  | inl _ => False
  | inr (Success _) => True
  | inr (Failure error) =>
      (∃ resp, net 0%nat URL (request_init prompt) = inr resp
               ∧ ok resp = false
               ∧ error = status_error_message (status resp)
               ∧ error ≠ [])
      ∨ (∃ thrown,
           (net 0%nat URL (request_init prompt) = inl thrown
            ∨ ∃ resp, net 0%nat URL (request_init prompt) = inr resp
                      ∧ ok resp = true
                      ∧ json_body resp = inl thrown)
           ∧ error = match thrown with
                     | ErrorObject message => message
                     | OtherValue => unknown_error_message
                     end
           ∧ (error = [] ↔ thrown = ErrorObject []))
  end.
Proof.
  assert (Htext : ∀ thrown,
    match thrown with
    | ErrorObject message => message
    | OtherValue => unknown_error_message
    end = [] ↔ thrown = ErrorObject []).
  { intros [m|]; split; try congruence; try discriminate. }
  destruct (net 0%nat URL (request_init prompt)) as [e|resp] eqn:Hnet.
  - rewrite sendMessageToModel_failure by (by rewrite Hnet).
    rewrite Hnet. right. exists e. split_and!; [by left|done|apply Htext].
  - destruct (ok resp) eqn:Hok.
    + destruct (json_body resp) as [e|rawData] eqn:Hbody.
      * unfold sendMessageToModel, fetch, Response_json, mbind, IO_bind. simpl.
        rewrite Hnet. simpl. rewrite Hok, Hbody. simpl.
        right. exists e. split_and!; [right; by exists resp|done|apply Htext].
      * by rewrite (sendMessageToModel_success URL net prompt resp rawData).
    + rewrite sendMessageToModel_failure by (by rewrite Hnet).
      rewrite Hnet. simpl. left. exists resp. by split_and!.
Qed.

(** C8, as stated, fails: a request rejected with an [Error] whose message
    is empty makes the call return a failure with the empty error text. *)
Lemma sendMessageToModel_empty_error :
  (run net_silent [] (sendMessageToModel sample_url (str "hi"))).2 = inr (Failure []).
Proof. reflexivity. Qed.

(** C2: when the request is rejected or the response is not ok,
    [sendMessageToModel] returns a failure with one error text;
    [handleSendMessage] appends that text to the transcript as an AI
    message flagged as an error, and leaves the file store and the active
    file as they were. The last part holds for whatever state the handler
    resumes in. *)
Theorem handleSendMessage_failed_send (URL : jsstring) (net : Network) (s : App) :
  is_empty (trim (message s)) = false →
  fetch_fails (net 0%nat URL (request_init (message s))) →
  ∃ (error : jsstring) (s' : App),
    (run net [] (sendMessageToModel URL (message s))).2 = inr (Failure error)
    ∧ (run net [] (handleSendMessage URL s)).2 = inr s'
    ∧ chatHistory s'
      = chatHistory s ++ [mkMsg user (message s) None; mkMsg ai error (Some true)]
    ∧ files s' = files s
    ∧ activeFile s' = activeFile s
    ∧ ∀ s1, chatHistory (handleSendMessage_resume (Failure error) s1)
            = chatHistory s1 ++ [mkMsg ai error (Some true)]
            ∧ files (handleSendMessage_resume (Failure error) s1) = files s1
            ∧ activeFile (handleSendMessage_resume (Failure error) s1) = activeFile s1.
Proof.
  intros Hblank Hfails.
  pose proof (sendMessageToModel_failure URL net (message s) Hfails) as Hsend.
  eexists _, _. split; [exact Hsend|].
  split; [by apply handleSendMessage_run|].
  simpl. split_and!; try done. by rewrite <- (assoc_L (++)).
Qed.

Lemma handleSendMessage_failed_send_witness :
  is_empty (trim (message (typing (str "a page") sample_files))) = false
  ∧ fetch_fails (net_down 0%nat sample_url (request_init (str "a page")))
  ∧ ∃ s', (run net_down [] (handleSendMessage sample_url
                              (typing (str "a page") sample_files))).2 = inr s'
          ∧ chatHistory s'
            = [mkMsg ai greeting None; mkMsg user (str "a page") None;
               mkMsg ai (str "Failed to fetch") (Some true)]
          ∧ files s' = sample_files
          ∧ activeFile s' = None.
Proof.
  split; [reflexivity|]. split; [exact I|].
  destruct (handleSendMessage_failed_send sample_url net_down
              (typing (str "a page") sample_files) eq_refl I)
    as (error & s' & Hsend & Hrun & Hchat & Hfiles & Hactive & _).
  exists s'. split; [exact Hrun|]. split; [|split; assumption].
  rewrite Hchat. injection Hsend as <-. reflexivity.
Defined.

(** C4: when the service returns a success, [handleSendMessage] appends
    the returned text to the transcript as an AI message, puts it at the
    end of the file store as the file named [content], which becomes the
    active file, and keeps every file with another name, in order. The
    update of the store is the same for whatever state the handler resumes
    in. *)
Theorem handleSendMessage_successful_send (URL : jsstring) (net : Network) (s : App)
    (text : jsstring) :
  is_empty (trim (message s)) = false →
  (run net [] (sendMessageToModel URL (message s))).2 = inr (Success text) →
  ∃ s' : App,
    (run net [] (handleSendMessage URL s)).2 = inr s'
    ∧ chatHistory s'
      = chatHistory s ++ [mkMsg user (message s) None; mkMsg ai text None]
    ∧ files s'
      = filter (λ f, name f ≠ content_name) (files s) ++ [mkFile content_name text file]
    ∧ activeFile s' = Some content_name
    ∧ filter (λ f, name f ≠ content_name) (files s')
      = filter (λ f, name f ≠ content_name) (files s)
    ∧ (∀ f, name f ≠ content_name → f ∈ files s' ↔ f ∈ files s)
    ∧ ∀ s1, chatHistory (handleSendMessage_resume (Success text) s1)
            = chatHistory s1 ++ [mkMsg ai text None]
            ∧ files (handleSendMessage_resume (Success text) s1)
              = filter (λ f, name f ≠ content_name) (files s1)
                ++ [mkFile content_name text file]
            ∧ activeFile (handleSendMessage_resume (Success text) s1)
              = Some content_name.
Proof.
  intros Hblank Hsend. eexists. split; [by apply handleSendMessage_run|].
  simpl. split_and!; try done.
  - by rewrite <- (assoc_L (++)).
  - rewrite filter_app, list_filter_filter.
    rewrite filter_cons_False, filter_nil, app_nil_r by (simpl; tauto).
    apply list_filter_iff. tauto.
  - intros f Hf. rewrite elem_of_app, list_elem_of_filter, list_elem_of_singleton.
    split; [intros [[_ ?]| ->]; done | auto].
Qed.

Lemma handleSendMessage_successful_send_witness :
  is_empty (trim (message (typing (str "a page") sample_files))) = false
  ∧ (run net_answers [] (sendMessageToModel sample_url (str "a page"))).2
    = inr (Success (str "<p>hi</p>"))
  ∧ ∃ s', (run net_answers [] (handleSendMessage sample_url
                                 (typing (str "a page") sample_files))).2 = inr s'
          ∧ files s'
            = [ mkFile (str "index.html") (str "<html><head></head><body></body></html>") file;
                mkFile (str "style.css") (str "p { color: red }") file;
                mkFile content_name (str "<p>hi</p>") file ]
          ∧ activeFile s' = Some content_name.
Proof.
  split; [reflexivity|]. split; [vm_compute; reflexivity|].
  destruct (handleSendMessage_successful_send sample_url net_answers
              (typing (str "a page") sample_files) (str "<p>hi</p>") eq_refl)
    as (s' & Hrun & Hchat & Hfiles & Hactive & _).
  { vm_compute. reflexivity. }
  exists s'. split; [exact Hrun|]. split; [|exact Hactive].
  rewrite Hfiles. vm_compute. reflexivity.
Defined.

(** ** The file store *)

Lemma some_name (fs : list FileNode) (n : jsstring) :
  some (λ f, name f = n) fs = true ↔ n ∈ name <$> fs.
Proof.
  unfold some. rewrite bool_decide_eq_true, Exists_exists, list_elem_of_fmap.
  split; [intros (f & Hf & <-) | intros (f & -> & Hf)]; eauto.
Qed.

Lemma some_name_false (fs : list FileNode) (n : jsstring) :
  some (λ f, name f = n) fs = false ↔ n ∉ name <$> fs.
Proof. rewrite <- some_name. by destruct (some _ fs). Qed.

Lemma names_set_content (fs : list FileNode) (active newContent : jsstring) :
  name <$> ((λ f, if decide (name f = active)
                  then mkFile (name f) newContent (type f) else f) <$> fs)
  = name <$> fs.
Proof.
  rewrite <- list_fmap_compose. apply list_fmap_ext. intros i f _. simpl.
  by case_decide.
Qed.

Lemma names_rename (fs : list FileNode) (oldName newName : jsstring) :
  name <$> ((λ f, if decide (name f = oldName)
                  then mkFile newName (content f) (type f) else f) <$> fs)
  = (λ n, if decide (n = oldName) then newName else n) <$> (name <$> fs).
Proof.
  rewrite <- !list_fmap_compose. apply list_fmap_ext. intros i f _. simpl.
  by case_decide.
Qed.

(** Renaming to a name that is not in use keeps the names distinct. *)
Lemma NoDup_rename (names : list jsstring) (oldName newName : jsstring) :
  NoDup names → newName ∉ names →
  NoDup ((λ n, if decide (n = oldName) then newName else n) <$> names).
Proof.
  intros Hnd Hfresh. apply NoDup_fmap_2_strong; [|done].
  intros x y Hx Hy. simpl.
  destruct (decide (x = oldName)), (decide (y = oldName)); congruence.
Qed.

(** Dropping the file named [content] and putting a new one at the end
    keeps the names distinct. *)
Lemma NoDup_replace_content (fs : list FileNode) (text : jsstring) :
  NoDup (name <$> fs) →
  NoDup (name <$> (filter (λ f, name f ≠ content_name) fs ++ [mkFile content_name text file])).
Proof.
  intros Hnd. rewrite fmap_app. apply NoDup_app. split_and!.
  - eapply sublist_NoDup; [exact Hnd|]. apply fmap_sublist, sublist_filter.
  - intros n (f & -> & [Hf _]%list_elem_of_filter)%list_elem_of_fmap.
    simpl. by rewrite list_elem_of_singleton.
  - apply NoDup_singleton.
Qed.

Lemma handleAddNewFile_files (answer : option jsstring) (s : App) :
  files (handleAddNewFile answer s)
  = match answer with
    | Some fileName =>
        if is_empty fileName || some (λ f, name f = fileName) (files s)
        then files s
        else files s ++ [mkFile fileName [] file]
    | None => files s
    end.
Proof.
  unfold handleAddNewFile. destruct answer as [fileName|]; [|done].
  destruct (is_empty fileName); [done|]. simpl.
  by destruct (some _ (files s)).
Qed.

Lemma handleRenameFile_files (oldName newName : jsstring) (s : App) :
  files (handleRenameFile oldName newName s)
  = if is_empty (trim newName) || bool_decide (trim newName = oldName)
       || some (λ f, name f = trim newName) (files s)
    then files s
    else (λ f, if decide (name f = oldName)
               then mkFile (trim newName) (content f) (type f) else f) <$> files s.
Proof.
  unfold handleRenameFile.
  destruct (is_empty (trim newName) || bool_decide (trim newName = oldName)); [done|].
  simpl. destruct (some _ (files s)); [done|].
  by destruct (bool_decide (activeFile s = Some oldName)).
Qed.

Lemma handleAddNewFile_NoDup (answer : option jsstring) (s : App) :
  NoDup (name <$> files s) → NoDup (name <$> files (handleAddNewFile answer s)).
Proof.
  intros Hnd. rewrite handleAddNewFile_files.
  destruct answer as [fileName|]; [|done].
  destruct (is_empty fileName); [done|]. simpl.
  destruct (some _ (files s)) eqn:Hsome; [done|].
  apply some_name_false in Hsome.
  rewrite fmap_app. apply NoDup_app. split_and!; [done| |apply NoDup_singleton].
  intros n Hn. simpl. rewrite list_elem_of_singleton. by intros ->.
Qed.

Lemma handleRenameFile_NoDup (oldName newName : jsstring) (s : App) :
  NoDup (name <$> files s) →
  NoDup (name <$> files (handleRenameFile oldName newName s)).
Proof.
  intros Hnd. rewrite handleRenameFile_files.
  destruct (is_empty _ || bool_decide _); [done|]. simpl.
  destruct (some _ (files s)) eqn:Hsome; [done|].
  apply some_name_false in Hsome.
  rewrite names_rename. by apply NoDup_rename.
Qed.

Lemma handleSendMessage_resume_NoDup (response : CodenixServiceResponse) (s : App) :
  NoDup (name <$> files s) →
  NoDup (name <$> files (handleSendMessage_resume response s)).
Proof.
  intros Hnd. destruct response as [text|error]; [|done].
  by apply NoDup_replace_content.
Qed.

Lemma handleContentChange_NoDup (newContent : jsstring) (s : App) :
  NoDup (name <$> files s) →
  NoDup (name <$> files (handleContentChange newContent s)).
Proof.
  intros Hnd. unfold handleContentChange.
  destruct (activeFile s) as [active|]; [|done].
  destruct (is_empty active); [done|]. simpl. by rewrite names_set_content.
Qed.

(** The names stay distinct along every sequence of actions from the
    empty store the component starts with. *)
Lemma reachable_names_distinct (innerWidth : Q) (actions : list Action) :
  NoDup (name <$> files (foldl act (initial innerWidth) actions)).
Proof.
  assert (Hinit : NoDup (name <$> files (initial innerWidth))) by constructor.
  revert Hinit. generalize (initial innerWidth).
  induction actions as [|a actions IH]; intros s Hnd; [done|].
  simpl. apply IH. destruct a; simpl;
    auto using handleAddNewFile_NoDup, handleRenameFile_NoDup,
      handleSendMessage_resume_NoDup, handleContentChange_NoDup.
Qed.

(** C5 (amended): adding a file and renaming a file check the new name
    against the names in use and, when it is taken, change nothing but the
    alert shown; both give a store with distinct names from one with
    distinct names. The component has no operation that deletes a file on
    request. The one removal it performs, that of the old [content] file
    when a response arrives, is made without a check and without an alert,
    and with the insertion that follows it also gives a store with distinct
    names. *)
Theorem store_operations_keep_names_distinct (s : App) :
  NoDup (name <$> files s) →
  (∀ answer, NoDup (name <$> files (handleAddNewFile answer s)))
  ∧ (∀ oldName newName, NoDup (name <$> files (handleRenameFile oldName newName s)))
  ∧ (∀ fileName, fileName ∈ name <$> files s →
       handleAddNewFile (Some fileName) s
       = if is_empty fileName then s else alert (exists_alert fileName) s)
  ∧ (∀ oldName newName, trim newName ∈ name <$> files s →
       handleRenameFile oldName newName s
       = if is_empty (trim newName) || bool_decide (trim newName = oldName)
         then setRenamingFile None s
         else alert (exists_alert (trim newName)) s)
  ∧ (∀ text,
       files (handleSendMessage_resume (Success text) s)
       = filter (λ f, name f ≠ content_name) (files s) ++ [mkFile content_name text file]
       ∧ alerts (handleSendMessage_resume (Success text) s) = alerts s
       ∧ NoDup (name <$> files (handleSendMessage_resume (Success text) s)))
  ∧ (∀ error,
       files (handleSendMessage_resume (Failure error) s) = files s).
Proof.
  intros Hnd. split_and!.
  - intros answer. by apply handleAddNewFile_NoDup.
  - intros oldName newName. by apply handleRenameFile_NoDup.
  - intros fileName Hin%some_name. unfold handleAddNewFile. by rewrite Hin.
  - intros oldName newName Hin%some_name. unfold handleRenameFile. by rewrite Hin.
  - intros text. split_and!; [done|done|].
    by apply (handleSendMessage_resume_NoDup (Success text)).
  - done.
Qed.

Lemma store_operations_keep_names_distinct_witness :
  NoDup (name <$> files (typing [] sample_files))
  ∧ NoDup (name <$> files (handleRenameFile (str "style.css") (str " main.css ")
                             (typing [] sample_files)))
  ∧ files (handleAddNewFile (Some (str "index.html")) (typing [] sample_files))
    = sample_files.
Proof.
  assert (Hnd : NoDup (name <$> files (typing [] sample_files))).
  { apply (bool_decide_unpack _). vm_compute. exact I. }
  destruct (store_operations_keep_names_distinct _ Hnd)
    as (_ & Hrename & Hadd & _).
  split; [exact Hnd|]. split; [apply Hrename|].
  rewrite (Hadd (str "index.html")); [reflexivity|].
  apply (bool_decide_unpack _). vm_compute. exact I.
Defined.

(** C5, as stated, fails for the removal: in a store with distinct names
    that holds a file named [content], the arrival of a response takes that
    file out of the store although its name is in use; nothing is checked,
    nothing is refused and no alert is shown, unlike for an addition or a
    rename under a name in use. *)
Lemma content_file_removed_without_check :
  NoDup (name <$> files (typing [] sample_files))
  ∧ content_name ∈ name <$> files (typing [] sample_files)
  ∧ mkFile content_name (str "<p>old</p>") file ∈ files (typing [] sample_files)
  ∧ ¬ (mkFile content_name (str "<p>old</p>") file
       ∈ files (handleSendMessage_resume (Success (str "<p>new</p>"))
                  (typing [] sample_files)))
  ∧ files (handleSendMessage_resume (Success (str "<p>new</p>"))
             (typing [] sample_files))
    ≠ files (typing [] sample_files)
  ∧ alerts (handleSendMessage_resume (Success (str "<p>new</p>"))
              (typing [] sample_files))
    = alerts (typing [] sample_files).
Proof.
  assert (Hgone : str "<p>old</p>"
                  ∉ content <$> files (handleSendMessage_resume
                                         (Success (str "<p>new</p>"))
                                         (typing [] sample_files))).
  { apply (bool_decide_unpack _). vm_compute. exact I. }
  assert (Hthere : mkFile content_name (str "<p>old</p>") file
                   ∈ files (typing [] sample_files)).
  { right. right. left. }
  split_and!.
  - apply (bool_decide_unpack _). vm_compute. exact I.
  - apply (bool_decide_unpack _). vm_compute. exact I.
  - exact Hthere.
  - intros Hin. apply Hgone.
    by apply (list_elem_of_fmap_2 content) in Hin.
  - intros Heq. apply Hgone. rewrite Heq.
    by apply (list_elem_of_fmap_2 content) in Hthere.
  - reflexivity.
Qed.

(** C6: renaming [oldName] to a name that, once trimmed, is the name of
    another file of the store is refused, for every [oldName] (in the store
    or not): the file store and the active file stay as they are, and the
    only effect is the alert that the name is taken. *)
Theorem handleRenameFile_duplicate_rejected (oldName newName : jsstring) (s : App)
    (other : FileNode) :
  other ∈ files s →
  name other = trim newName →
  name other ≠ oldName →
  files (handleRenameFile oldName newName s) = files s
  ∧ activeFile (handleRenameFile oldName newName s) = activeFile s
  ∧ (name other ≠ [] →
     handleRenameFile oldName newName s = alert (exists_alert (trim newName)) s).
Proof.
  intros Hin Hname Hother.
  assert (Hsome : some (λ f, name f = trim newName) (files s) = true).
  { apply some_name, list_elem_of_fmap. eauto. }
  unfold handleRenameFile. rewrite <- Hname in *.
  rewrite (bool_decide_eq_false_2 _ Hother), orb_false_r, Hsome.
  destruct (name other); simpl; split_and!; done.
Qed.

Lemma handleRenameFile_duplicate_rejected_witness :
  mkFile (str "index.html") (str "<html><head></head><body></body></html>") file
    ∈ files (typing [] sample_files)
  ∧ files (handleRenameFile (str "style.css") (str " index.html ")
             (typing [] sample_files)) = sample_files.
Proof.
  assert (Hin : mkFile (str "index.html")
                  (str "<html><head></head><body></body></html>") file
                ∈ files (typing [] sample_files)) by constructor.
  split; [exact Hin|].
  refine (proj1 (handleRenameFile_duplicate_rejected (str "style.css") (str " index.html ")
                   (typing [] sample_files) _ Hin _ _)).
  - vm_compute. reflexivity.
  - apply (bool_decide_unpack _). vm_compute. exact I.
Defined.

(** C9: [handleContentChange] leaves the length of the store, the order and
    every name as they are, and every file whose name is not the active
    file entirely as it is; the file named by the active file gets the new
    content; with no active file the store is the same. *)
Theorem handleContentChange_frame (newContent : jsstring) (s : App) :
  length (files (handleContentChange newContent s)) = length (files s)
  ∧ name <$> files (handleContentChange newContent s) = name <$> files s
  ∧ (∀ i f, files s !! i = Some f → activeFile s ≠ Some (name f) →
       files (handleContentChange newContent s) !! i = Some f)
  ∧ (∀ i f, files s !! i = Some f → activeFile s = Some (name f) → name f ≠ [] →
       files (handleContentChange newContent s) !! i
       = Some (mkFile (name f) newContent (type f)))
  ∧ (activeFile s = None → handleContentChange newContent s = s)
  ∧ activeFile (handleContentChange newContent s) = activeFile s.
Proof.
  unfold handleContentChange.
  destruct (activeFile s) as [active|] eqn:Hactive; [|done].
  destruct (is_empty active) eqn:Hempty.
  { split_and!; try done. intros i f _ [= ->] Hne. by destruct (name f). }
  simpl. split_and!; try done.
  - apply length_fmap.
  - apply names_set_content.
  - intros i f Hf Hne. rewrite list_lookup_fmap, Hf. simpl.
    case_decide; [congruence|done].
  - intros i f Hf [= ->] _. rewrite list_lookup_fmap, Hf. simpl.
    by case_decide.
Qed.

(** ** The layout *)

Lemma Math_max_lower (a b : Q) : (a <= Math_max a b)%Q.
Proof.
  unfold Math_max. destruct (Qle_bool a b) eqn:Hle.
  - by apply Qle_bool_iff.
  - apply Qle_refl.
Qed.

(** One drag step puts the size it controls at or above its bound. *)
Lemma onDrag_bound (d : Divider) (dx dy : Q) (s : App) :
  (lower_bound d <= dimension d (onDrag d dx dy s))%Q.
Proof. destruct d; apply Math_max_lower. Qed.

(** It leaves the other two sizes alone. *)
Lemma onDrag_other (d d' : Divider) (dx dy : Q) (s : App) :
  d ≠ d' → dimension d' (onDrag d dx dy s) = dimension d' s.
Proof. by destruct d, d'. Qed.

Lemma drags_bound (d : Divider) (ds : list (Divider * Q * Q)) (s : App) :
  (lower_bound d <= dimension d s)%Q ∨ dragged d ds →
  (lower_bound d <= dimension d (drags ds s))%Q.
Proof.
  revert s. induction ds as [|[[d' dx] dy] ds IH]; intros s Hs.
  - destruct Hs as [Hs|(dx & dy & Hin)]; [done|]. by apply elem_of_nil in Hin.
  - change (drags (((d', dx), dy) :: ds) s) with (drags ds (onDrag d' dx dy s)).
    apply IH. destruct (decide (d' = d)) as [->|Hne].
    + left. apply onDrag_bound.
    + rewrite onDrag_other by done.
      destruct Hs as [Hs|(dx' & dy' & Hin)]; [by left|right].
      apply elem_of_cons in Hin as [?|Hin]; [congruence|]. by exists dx', dy'.
Qed.

(** C10 (amended): every drag step leaves the size it controls at or
    above its bound, for every mouse delta; after any sequence of drag
    steps from the initial layout the explorer is at least 200 wide and the
    console at least 0 high; the right panel is at least 200 wide once its
    divider has been dragged, or when a third of the window width it starts
    with was already 200 or more. *)
Theorem drags_keep_lower_bounds (innerWidth : Q) (ds : list (Divider * Q * Q)) :
  (∀ s d dx dy, (lower_bound d <= dimension d (onDrag d dx dy s))%Q)
  ∧ (200 <= explorerWidth (drags ds (initial innerWidth)))%Q
  ∧ (0 <= consoleHeight (drags ds (initial innerWidth)))%Q
  ∧ ((200 <= innerWidth * 0.33)%Q ∨ dragged RightPanelDivider ds →
     (200 <= rightPanelWidth (drags ds (initial innerWidth)))%Q).
Proof.
  split_and!.
  - intros s d dx dy. apply onDrag_bound.
  - apply (drags_bound ExplorerDivider). by left.
  - apply (drags_bound ConsoleDivider). by left.
  - intros Hright. apply (drags_bound RightPanelDivider ds (initial innerWidth)).
    exact Hright.
Qed.

(** C10, as stated, fails: in a window 500 pixels wide the right panel
    starts 165 wide, and dragging the other two dividers leaves it
    there. *)
Lemma right_panel_below_bound :
  let s := drags [(ExplorerDivider, 10, 0); (ConsoleDivider, 0, -50)]%Q (initial 500) in
  ¬ ((200 <= explorerWidth s)%Q ∧ (200 <= rightPanelWidth s)%Q ∧ (0 <= consoleHeight s)%Q).
Proof. intros s (_ & Hright & _). vm_compute in Hright. by apply Hright. Qed.

(** ** The preview composer *)

Lemma find_Some {A} (P : A → Prop) `{!∀ x, Decision (P x)} (l : list A) (x : A) :
  find P l = Some x →
  ∃ l1 l2, l = l1 ++ x :: l2 ∧ P x ∧ Forall (λ y, ¬ P y) l1.
Proof.
  induction l as [|y l IH]; simpl; [done|]. case_decide as Hy.
  - intros [= ->]. exists [], l. by split_and!.
  - intros (l1 & l2 & -> & Hx & Hl1)%IH. exists (y :: l1), l2.
    split_and!; [done|done|by constructor].
Qed.

Lemma find_None {A} (P : A → Prop) `{!∀ x, Decision (P x)} (l : list A) :
  find P l = None ↔ Forall (λ y, ¬ P y) l.
Proof.
  induction l as [|y l IH]; simpl; [by split|]. rewrite Forall_cons.
  case_decide as Hy.
  - split; [done|]. by intros [? _].
  - rewrite IH. tauto.
Qed.

(** The file the preview starts from: the first file named [content], or,
    when there is none, the first file whose name ends with [.html]. *)
Lemma htmlFile_Some (fs : list FileNode) (h : FileNode) :
  htmlFile fs = Some h →
  ∃ fs1 fs2, fs = fs1 ++ h :: fs2
    ∧ ((name h = content_name ∧ Forall (λ f, name f ≠ content_name) fs1)
       ∨ (endsWith (name h) (str ".html") = true
          ∧ Forall (λ f, name f ≠ content_name) fs
          ∧ Forall (λ f, endsWith (name f) (str ".html") ≠ true) fs1)).
Proof.
  unfold htmlFile.
  destruct (find (λ f, name f = content_name) fs) as [f|] eqn:Hcontent.
  - intros [= ->]. apply find_Some in Hcontent as (fs1 & fs2 & ? & ? & ?). eauto 10.
  - apply find_None in Hcontent.
    intros (fs1 & fs2 & ? & ? & ?)%find_Some. eauto 10.
Qed.

Lemma htmlFile_None (fs : list FileNode) :
  htmlFile fs = None ↔
  Forall (λ f, name f ≠ content_name ∧ endsWith (name f) (str ".html") ≠ true) fs.
Proof.
  unfold htmlFile. rewrite Forall_and.
  destruct (find (λ f, name f = content_name) fs) as [f|] eqn:Hcontent.
  - split; [done|]. intros [Hnone _].
    apply (find_None (λ f, name f = content_name)) in Hnone. congruence.
  - apply find_None in Hcontent.
    rewrite (find_None (λ f, endsWith (name f) (str ".html") = true)). tauto.
Qed.

Lemma indexOf_unfold (s pat : jsstring) :
  indexOf s pat
  = if bool_decide (pat `prefix_of` s) then Some 0%nat
    else match s with
         | [] => None
         | _ :: s' => S <$> indexOf s' pat
         end.
Proof. by destruct s. Qed.

(** [indexOf] finds an occurrence, and the first one. *)
Lemma indexOf_Some (s pat : jsstring) (pos : nat) :
  indexOf s pat = Some pos →
  drop pos s = pat ++ drop (pos + length pat) s
  ∧ ∀ i, (i < pos)%nat → ¬ pat `prefix_of` drop i s.
Proof.
  revert pos. induction s as [|c s IH]; intros pos; rewrite indexOf_unfold;
    case_bool_decide as Hp.
  - intros [= <-]. destruct Hp as [k Hk]. split; [|lia].
    symmetry in Hk. apply app_eq_nil in Hk as [-> ->]. done.
  - done.
  - intros [= <-]. destruct Hp as [k ->]. split; [|lia].
    simpl. by rewrite drop_app_length.
  - destruct (indexOf s pat) as [p|] eqn:Hidx; [|done].
    intros [= <-]. destruct (IH p eq_refl) as [Hdrop Hfirst]. split; [done|].
    intros [|i] Hi; [done|]. simpl. apply Hfirst. lia.
Qed.

Lemma includes_true (s pat : jsstring) :
  includes s pat = true ↔ ∃ a c, s = a ++ pat ++ c.
Proof.
  unfold includes. split.
  - destruct (indexOf s pat) as [pos|] eqn:Hidx; [|done]. intros _.
    apply indexOf_Some in Hidx as [Hdrop _].
    exists (take pos s), (drop (pos + length pat) s).
    by rewrite <- Hdrop, take_drop.
  - intros (a & c & ->). induction a as [|x a IH].
    + rewrite indexOf_unfold, bool_decide_eq_true_2; [done|]. by exists c.
    + rewrite indexOf_unfold. case_bool_decide; [done|]. simpl.
      by destruct (indexOf (a ++ pat ++ c) pat).
Qed.

(** A replacement text without a dollar sign is inserted as it is. *)
Lemma GetSubstitution_plain (matched before after template : jsstring) :
  DOLLAR ∉ template →
  GetSubstitution matched before after template = template.
Proof.
  induction template as [|c template IH]; [done|].
  intros [Hc Hrest]%not_elem_of_cons. simpl.
  assert ((c =? DOLLAR)%N = false) as -> by (apply N.eqb_neq; congruence).
  f_equal. by apply IH.
Qed.

Lemma replace_plain (doc tag text : jsstring) :
  DOLLAR ∉ text → DOLLAR ∉ LF ++ tag →
  (if includes doc tag then replace doc tag (text ++ LF ++ tag) else doc ++ text)
  = insert_before tag doc text.
Proof.
  intros Htext Htag. unfold includes, replace, insert_before.
  destruct (indexOf doc tag) as [pos|] eqn:Hidx; [|done].
  rewrite GetSubstitution_plain by (by apply not_elem_of_app).
  apply indexOf_Some in Hidx as [-> _]. by rewrite <- !(assoc_L (++)).
Qed.

Lemma join_contains (sep x : jsstring) (l : list jsstring) :
  x ∈ l → ∃ a c, join sep l = a ++ x ++ c.
Proof.
  induction l as [|y l IH]; [by intros ?%elem_of_nil|].
  intros [->|Hin]%elem_of_cons.
  - destruct l as [|z l]; [exists [], []; simpl; by rewrite app_nil_r|].
    by exists [], (sep ++ join sep (z :: l)).
  - destruct (IH Hin) as (a & c & Hjoin). destruct l as [|z l]; [by apply elem_of_nil in Hin|].
    exists (y ++ sep ++ a), c.
    change (join sep (y :: z :: l)) with (y ++ sep ++ join sep (z :: l)).
    rewrite Hjoin. by rewrite <- !(assoc_L (++)).
Qed.

Lemma previewContent_no_html (fs : list FileNode) :
  htmlFile fs = None → previewContent fs = no_html_found.
Proof. intros Hnone. unfold previewContent. by rewrite Hnone. Qed.

(** When no style sheet and no script holds a dollar sign, the preview is
    the HTML file with the style elements in front of its first [</head>]
    (or at its end) and then the script elements in front of the first
    [</body>] (or at the end). *)
Lemma previewContent_composed (fs : list FileNode) (h : FileNode) :
  htmlFile fs = Some h →
  DOLLAR ∉ styles fs → DOLLAR ∉ scripts fs →
  previewContent fs
  = insert_before (str "</body>")
      (insert_before (str "</head>") (content h) (styles fs)) (scripts fs).
Proof.
  intros Hh Hstyles Hscripts. unfold previewContent. rewrite Hh. simpl.
  rewrite (replace_plain (content h)); [|done|by apply (bool_decide_unpack _)].
  rewrite replace_plain; [done|done|by apply (bool_decide_unpack _)].
Qed.

Lemma insert_before_contains (tag doc text x : jsstring) :
  (∃ a c, text = a ++ x ++ c) →
  includes (insert_before tag doc text) x = true.
Proof.
  intros (a & c & ->). apply includes_true. unfold insert_before.
  destruct (indexOf doc tag) as [pos|].
  - exists (take pos doc ++ a), (c ++ LF ++ drop pos doc).
    by rewrite <- !(assoc_L (++)).
  - exists (doc ++ a), c. by rewrite <- !(assoc_L (++)).
Qed.

(** Under the same condition every script element is in the preview, and
    every style element is in the document the scripts are then put
    into. *)
Lemma previewContent_contains_script (fs : list FileNode) (h f : FileNode) :
  htmlFile fs = Some h →
  DOLLAR ∉ styles fs → DOLLAR ∉ scripts fs →
  f ∈ fs → endsWith (name f) (str ".js") = true →
  includes (previewContent fs) (script_element f) = true.
Proof.
  intros Hh Hstyles Hscripts Hf Hjs.
  rewrite (previewContent_composed fs h) by done.
  apply insert_before_contains, join_contains.
  apply list_elem_of_fmap_2, list_elem_of_filter. by split.
Qed.

Lemma styles_inserted (fs : list FileNode) (h f : FileNode) :
  f ∈ fs → endsWith (name f) (str ".css") = true →
  includes (insert_before (str "</head>") (content h) (styles fs)) (style_element f)
  = true.
Proof.
  intros Hf Hcss. apply insert_before_contains, join_contains.
  apply list_elem_of_fmap_2, list_elem_of_filter. by split.
Qed.

(** C7 (failing input): the project [escape_project] has an HTML file with
    a [</body>] and one script, whose text holds [$&]. The preview does not
    contain the script element with that text: [replace] has put the
    matched [</body>] where the script says [$&]. *)
Theorem previewContent_rewrites_dollar_pattern :
  htmlFile escape_project
  = Some (mkFile (str "index.html")
            (str "<html><head></head><body><p>x</p></body></html>") file)
  ∧ jsFiles escape_project = [escape_js]
  ∧ includes (previewContent escape_project) (script_element escape_js) = false
  ∧ previewContent escape_project
    = str "<html><head>" ++ LF ++ str "</head><body><p>x</p><script type="
      ++ DQUOTE ++ str "module" ++ DQUOTE
      ++ str ">const esc = s => s.replace(/[.*+?]/g, '\\</body>');</script>"
      ++ LF ++ str "</body></html>".
Proof. split_and!; vm_compute; reflexivity. Qed.

(** * Further properties of the component *)

(** ** The service and the relay *)

Lemma trimStart_all_white (s : jsstring) :
  Forall (λ c, is_white_space c = true) s → trimStart s = [].
Proof. induction 1 as [|c s Hc _ IH]; simpl; [done|]. by rewrite Hc. Qed.

Lemma trimStart_nil (s : jsstring) :
  trimStart s = [] → Forall (λ c, is_white_space c = true) s.
Proof.
  induction s as [|c s IH]; simpl; [constructor|].
  destruct (is_white_space c) eqn:Hc; [|done]. by constructor; auto.
Qed.

(** [trim] gives the empty string exactly on the strings made of white
    space only. *)
Lemma trim_nil_iff (s : jsstring) :
  trim s = [] ↔ Forall (λ c, is_white_space c = true) s.
Proof.
  split.
  - intros Hnil. destruct (trim_spec s) as (l & r & Hs & Hl & Hr & _).
    rewrite Hs, Hnil. by apply Forall_app.
  - intros Hall. unfold trim, trimEnd. by rewrite (trimStart_all_white s).
Qed.

Lemma is_empty_true (s : jsstring) : is_empty s = true ↔ s = [].
Proof. by destruct s. Qed.

Lemma is_empty_false (s : jsstring) : is_empty s = false ↔ s ≠ [].
Proof. by destruct s. Qed.

(** X1: [console.error] is called exactly when the call fails, once, with
    the very value that was thrown: what [fetch] rejected with, an [Error]
    holding the status line when the response is not ok, or what
    [response.json()] rejected with; the error returned is the text of that
    value. A success leaves the request as the only event. *)
Theorem sendMessageToModel_logs_failures (URL : jsstring) (net : Network)
    (prompt : jsstring) :
  let failed (thrown : Thrown) :=
    run net [] (sendMessageToModel URL prompt)
    = ([EvFetch URL (request_init prompt);
        EvConsoleError (str "Error calling Codenix service:") thrown],
       inr (Failure match thrown with
                    | ErrorObject message => message
                    | OtherValue => unknown_error_message
                    end)) in
  match net 0%nat URL (request_init prompt) with
  | inl thrown => failed thrown
  | inr resp =>
      if ok resp then
        match json_body resp with
        | inl thrown => failed thrown
        | inr _ =>
            ∃ message,
              run net [] (sendMessageToModel URL prompt)
              = ([EvFetch URL (request_init prompt)], inr (Success message))
        end
      else failed (ErrorObject (status_error_message (status resp)))
  end.
Proof.
  unfold sendMessageToModel, fetch, Response_json, console_error,
    mbind, IO_bind, mret, IO_ret; simpl.
  destruct (net 0%nat URL (request_init prompt)) as [e|[[] st [e|rawData]]]; simpl;
    try done.
  destruct (ToBoolean rawData); [destruct (typeof_string _)|]; eauto.
Qed.

(** X2: a response that is ok but whose body does not parse as JSON makes
    the call fail with the message of the parse error, or with the fixed
    text when the rejection is not an [Error]. *)
Theorem sendMessageToModel_unparseable_body (URL : jsstring) (net : Network)
    (prompt : jsstring) (resp : Response) (thrown : Thrown) :
  net 0%nat URL (request_init prompt) = inr resp →
  ok resp = true →
  json_body resp = inl thrown →
  (run net [] (sendMessageToModel URL prompt)).2
  = inr (Failure match thrown with
                 | ErrorObject message => message
                 | OtherValue => unknown_error_message
                 end).
Proof.
  intros Hnet Hok Hbody.
  unfold sendMessageToModel, fetch, Response_json, console_error,
    mbind, IO_bind, mret, IO_ret; simpl.
  rewrite Hnet. simpl. by rewrite Hok, Hbody.
Qed.

Lemma sendMessageToModel_unparseable_body_witness :
  net_garbled 0%nat sample_url (request_init (str "hi"))
  = inr {| ok := true; status := 200;
           json_body := inl (ErrorObject (str "Unexpected token < in JSON")) |}
  ∧ (run net_garbled [] (sendMessageToModel sample_url (str "hi"))).2
    = inr (Failure (str "Unexpected token < in JSON")).
Proof.
  split; [reflexivity|].
  exact (sendMessageToModel_unparseable_body sample_url net_garbled (str "hi")
           _ _ eq_refl eq_refl eq_refl).
Defined.

(** X3: the text of a success never begins or ends with white space,
    whatever the network answers. *)
Theorem sendMessageToModel_success_is_trimmed (URL : jsstring) (net : Network)
    (prompt message : jsstring) :
  (run net [] (sendMessageToModel URL prompt)).2 = inr (Success message) →
  (∀ c, head message = Some c → is_white_space c = false)
  ∧ (∀ c, last message = Some c → is_white_space c = false).
Proof.
  assert (Hplaceholder :
    (∀ c, head placeholder_message = Some c → is_white_space c = false)
    ∧ (∀ c, last placeholder_message = Some c → is_white_space c = false)).
  { split; intros c Hc; vm_compute in Hc; by injection Hc as <-. }
  assert (Htrim : ∀ a,
    (∀ c, head (trim a) = Some c → is_white_space c = false)
    ∧ (∀ c, last (trim a) = Some c → is_white_space c = false)).
  { intros a. destruct (trim_spec a) as (_ & _ & _ & _ & _ & ? & ?). by split. }
  destruct (net 0%nat URL (request_init prompt)) as [e|resp] eqn:Hnet.
  - rewrite sendMessageToModel_failure by (by rewrite Hnet). done.
  - destruct (ok resp) eqn:Hok.
    + destruct (json_body resp) as [e|rawData] eqn:Hbody.
      * by rewrite (sendMessageToModel_unparseable_body URL net prompt resp e).
      * rewrite (sendMessageToModel_success URL net prompt resp rawData) by done.
        intros [= <-]. destruct (ToBoolean rawData); [|exact Hplaceholder].
        destruct (typeof_string _); simpl; [apply Htrim|exact Hplaceholder].
    + rewrite sendMessageToModel_failure by (by rewrite Hnet). done.
Qed.

Lemma sendMessageToModel_success_is_trimmed_witness :
  (run net_answers [] (sendMessageToModel sample_url (str "hi"))).2
  = inr (Success (str "<p>hi</p>"))
  ∧ (∀ c, head (str "<p>hi</p>") = Some c → is_white_space c = false).
Proof.
  assert (Hrun : (run net_answers [] (sendMessageToModel sample_url (str "hi"))).2
                 = inr (Success (str "<p>hi</p>"))) by (vm_compute; reflexivity).
  split; [exact Hrun|].
  exact (proj1 (sendMessageToModel_success_is_trimmed sample_url net_answers
                  (str "hi") (str "<p>hi</p>") Hrun)).
Defined.

(** X4: an answer made of white space only gives a success with the empty
    text. *)
Theorem sendMessageToModel_blank_answer (URL : jsstring) (net : Network)
    (prompt : jsstring) (resp : Response) (m : gmap jsstring json) (answer : jsstring) :
  net 0%nat URL (request_init prompt) = inr resp →
  ok resp = true →
  json_body resp = inr (JObject m) →
  m !! answer_key = Some (JString answer) →
  Forall (λ c, is_white_space c = true) answer →
  (run net [] (sendMessageToModel URL prompt)).2 = inr (Success []).
Proof.
  intros Hnet Hok Hbody Hanswer Hwhite.
  rewrite (sendMessageToModel_success URL net prompt resp (JObject m)) by done.
  unfold get_answer. simpl. rewrite Hanswer. simpl.
  by rewrite (proj2 (trim_nil_iff answer) Hwhite).
Qed.

Lemma sendMessageToModel_blank_answer_witness :
  Forall (λ c, is_white_space c = true) ([32%N] ++ LF)
  ∧ (run net_blank [] (sendMessageToModel sample_url (str "hi"))).2 = inr (Success []).
Proof.
  assert (Hwhite : Forall (λ c, is_white_space c = true) ([32%N] ++ LF)).
  { repeat constructor. }
  split; [exact Hwhite|].
  exact (sendMessageToModel_blank_answer sample_url net_blank (str "hi") _ _ _
           eq_refl eq_refl eq_refl (lookup_singleton_eq _ _) Hwhite).
Defined.

Lemma handleSendMessage_log (URL : jsstring) (net : Network) (s : App) :
  is_empty (trim (message s)) = false →
  (run net [] (handleSendMessage URL s)).1
  = (run net [] (sendMessageToModel URL (message s))).1.
Proof.
  intros Hblank. unfold handleSendMessage. rewrite Hblank.
  unfold mbind, IO_bind. rewrite run_bind.
  by destruct (run net [] (sendMessageToModel URL (message s))) as [log' [e|r]].
Qed.

(** X5: [handleSendMessage] sends nothing and changes nothing when the
    message is made of white space only; otherwise it makes exactly one
    request, whose prompt is the message as typed (not trimmed), and ends in
    the state that [handleSendMessage_resume] gives from
    [handleSendMessage_begin]. *)
Theorem handleSendMessage_requests (URL : jsstring) (net : Network) (s : App) :
  (Forall (λ c, is_white_space c = true) (message s) →
   run net [] (handleSendMessage URL s) = ([], inr s))
  ∧ (¬ Forall (λ c, is_white_space c = true) (message s) →
     filter is_fetch (run net [] (handleSendMessage URL s)).1
     = [EvFetch URL (request_init (message s))]
     ∧ ∃ response,
         (run net [] (sendMessageToModel URL (message s))).2 = inr response
         ∧ (run net [] (handleSendMessage URL s)).2
           = inr (handleSendMessage_resume response (handleSendMessage_begin s))).
Proof.
  split.
  - intros Hwhite%trim_nil_iff. apply handleSendMessage_blank. by rewrite Hwhite.
  - intros Hwhite. assert (is_empty (trim (message s)) = false) as Hblank.
    { apply is_empty_false. by rewrite trim_nil_iff. }
    split.
    + rewrite handleSendMessage_log by done. apply sendMessageToModel_events.
    + destruct (sendMessageToModel_returns URL net (message s)) as [r Hr].
      exists r. split; [done|]. by apply handleSendMessage_run.
Qed.

Lemma session_step_ok (σ : Session) (i : Input) :
  session_ok σ → session_ok (session_step σ i).
Proof.
  intros [Hpending [n Hchat]].
  assert (Hstart : isLoading (app σ) = false → session_ok (start_send σ)).
  { intros Hidle. unfold start_send.
    destruct (is_empty (trim (message (app σ)))); [by split; eauto|].
    rewrite Hidle in Hpending, Hchat. split; simpl.
    - rewrite length_app, Hpending. done.
    - exists n. rewrite fmap_app, Hchat. simpl.
      by rewrite app_nil_r. }
  destruct i as [text| | |response]; simpl.
  - split; simpl; eauto.
  - destruct (isLoading (app σ)) eqn:Hl; [|by apply Hstart].
    split; [by rewrite Hl|]. exists n. by rewrite Hl.
  - destruct (isLoading (app σ)) eqn:Hl; simpl.
    + split; [by rewrite Hl|]. exists n. by rewrite Hl.
    + destruct (is_empty (trim (message (app σ)))) eqn:Hblank; [|by apply Hstart].
      split; [by rewrite Hl|]. exists n. by rewrite Hl.
  - destruct (pending σ) as [|p rest] eqn:Hp.
    { split; [by rewrite Hp|by exists n]. }
    destruct (isLoading (app σ)) eqn:Hl; [|done].
    destruct rest; [|done].
    assert (Hsenders : ∀ m : ChatMessage, sender m = ai →
      sender <$> chatHistory (app σ) ++ [m]
      = ai :: mjoin (replicate (S n) [user; ai]) ++ []).
    { intros m Hm. rewrite fmap_app, Hchat, replicate_S_end, join_app.
      simpl. rewrite Hm, app_nil_r. f_equal.
      by rewrite <- (assoc_L (++)). }
    split; [by destruct response|]. exists (S n).
    destruct response; simpl; by apply Hsenders.
Qed.

(** X6: whatever is typed, however often Enter is pressed or the button
    clicked, and whenever responses arrive, at most one request is in
    flight, [isLoading] is set exactly while it is, and the transcript is
    the greeting followed by question and reply in turn. *)
Theorem session_one_request_at_a_time (innerWidth : Q) (inputs : list Input) :
  session_ok (foldl session_step (mkSession (initial innerWidth) []) inputs).
Proof.
  assert (Hinit : session_ok (mkSession (initial innerWidth) [])).
  { split; [done|]. by exists 0%nat. }
  revert Hinit. generalize (mkSession (initial innerWidth) []).
  induction inputs as [|i inputs IH]; intros σ Hok; [done|].
  simpl. apply IH. by apply session_step_ok.
Qed.

(** ** The editor and the store *)

Lemma find_first {A} (P : A → Prop) `{!∀ x, Decision (P x)} (l1 l2 : list A) (x : A) :
  Forall (λ y, ¬ P y) l1 → P x → find P (l1 ++ x :: l2) = Some x.
Proof.
  intros Hl1 Hx. induction Hl1 as [|y l1 Hy _ IH]; simpl.
  - by rewrite decide_True.
  - by rewrite decide_False.
Qed.

(** The first file of a given name. *)
Lemma first_named (fs : list FileNode) (n : jsstring) :
  n ∈ name <$> fs →
  ∃ l1 f l2, fs = l1 ++ f :: l2 ∧ name f = n ∧ Forall (λ g, name g ≠ n) l1.
Proof.
  induction fs as [|g fs IH]; simpl; [by intros ?%elem_of_nil|].
  destruct (decide (name g = n)) as [Hg|Hg].
  - intros _. exists [], g, fs. by split_and!.
  - intros [?|Hin]%elem_of_cons; [congruence|].
    destruct (IH Hin) as (l1 & f & l2 & -> & Hf & Hl1).
    exists (g :: l1), f, l2. split_and!; [done|done|by constructor].
Qed.

Lemma activeFileContent_first (s : App) (l1 l2 : list FileNode) (f : FileNode) :
  files s = l1 ++ f :: l2 →
  activeFile s = Some (name f) →
  Forall (λ g, name g ≠ name f) l1 →
  activeFileContent s = content f.
Proof.
  intros Hfiles Hactive Hl1. unfold activeFileContent. rewrite Hfiles, Hactive.
  rewrite find_first; [simpl; by destruct (content f)| |done].
  eapply Forall_impl; [exact Hl1|]. simpl. congruence.
Qed.

Lemma activeFileContent_none (s : App) :
  activeFile s = None → activeFileContent s = [].
Proof.
  intros Hactive. unfold activeFileContent. rewrite Hactive.
  by rewrite (proj2 (find_None (λ f, None = Some (name f)) (files s)))
    by (apply Forall_forall; done).
Qed.

(** X7: after an edit the editor shows what was typed: when the active
    file is in the store, [activeFileContent] after
    [handleContentChange newContent] is [newContent]. *)
Theorem edit_then_read (newContent active : jsstring) (s : App) :
  activeFile s = Some active →
  active ≠ [] →
  active ∈ name <$> files s →
  activeFileContent (handleContentChange newContent s) = newContent.
Proof.
  intros Hactive Hne Hin. unfold handleContentChange. rewrite Hactive.
  rewrite (proj2 (is_empty_false active) Hne).
  destruct (first_named _ _ Hin) as (l1 & f & l2 & Hfiles & Hf & Hl1).
  rewrite Hfiles, fmap_app, fmap_cons. rewrite decide_True by done.
  eapply (activeFileContent_first _ _ _ (mkFile (name f) newContent (type f))).
  - reflexivity.
  - simpl. congruence.
  - simpl. apply Forall_fmap. eapply Forall_impl; [exact Hl1|].
    intros g Hg. simpl. destruct (decide (name g = active)); simpl; congruence.
Qed.

Lemma edit_then_read_witness :
  activeFile (setActiveFile (Some (str "style.css")) (typing [] sample_files))
  = Some (str "style.css")
  ∧ activeFileContent
      (handleContentChange (str "p { }")
         (setActiveFile (Some (str "style.css")) (typing [] sample_files)))
    = str "p { }".
Proof.
  split; [reflexivity|].
  apply (edit_then_read (str "p { }") (str "style.css")); [reflexivity|discriminate|].
  apply (bool_decide_unpack _). vm_compute. exact I.
Defined.

(** X8: of two edits in a row only the second counts. *)
Theorem edit_last_write_wins (c1 c2 : jsstring) (s : App) :
  handleContentChange c2 (handleContentChange c1 s) = handleContentChange c2 s.
Proof.
  destruct (activeFile s) as [active|] eqn:Hactive.
  2: { assert (handleContentChange c1 s = s) as ->; [|done].
       unfold handleContentChange. by rewrite Hactive. }
  destruct (is_empty active) eqn:Hempty.
  { assert (handleContentChange c1 s = s) as ->; [|done].
    unfold handleContentChange. by rewrite Hactive, Hempty. }
  unfold handleContentChange. rewrite Hactive, Hempty. simpl.
  rewrite Hactive, Hempty. unfold setFiles. simpl. f_equal.
  rewrite <- list_fmap_compose. apply list_fmap_ext. intros i f _. simpl.
  destruct (decide (name f = active)); simpl; [by rewrite decide_True|].
  by rewrite decide_False.
Qed.

(** X9: in a store with distinct names, selecting a file shows its
    content. *)
Theorem select_then_read (f : FileNode) (s : App) :
  NoDup (name <$> files s) →
  f ∈ files s →
  activeFileContent (handleFileSelect (name f) s) = content f.
Proof.
  intros Hnd Hf.
  destruct (first_named (files s) (name f)) as (l1 & f0 & l2 & Hfiles & Hf0 & Hl1).
  { by apply list_elem_of_fmap_2. }
  assert (f0 = f) as ->.
  { rewrite Hfiles in Hf, Hnd. rewrite fmap_app, fmap_cons in Hnd.
    apply NoDup_app in Hnd as (_ & _ & [Hnotin _]%NoDup_cons).
    apply elem_of_app in Hf as [Hf|[->|Hf]%elem_of_cons]; [|done|].
    - rewrite Forall_forall in Hl1. by destruct (Hl1 _ Hf).
    - destruct Hnotin. rewrite Hf0. by apply list_elem_of_fmap_2. }
  by apply (activeFileContent_first _ l1 l2).
Qed.

Lemma select_then_read_witness :
  NoDup (name <$> files (typing [] sample_files))
  ∧ activeFileContent (handleFileSelect (str "style.css") (typing [] sample_files))
    = str "p { color: red }".
Proof.
  assert (Hnd : NoDup (name <$> files (typing [] sample_files))).
  { apply (bool_decide_unpack _). vm_compute. exact I. }
  split; [exact Hnd|].
  apply (select_then_read (mkFile (str "style.css") (str "p { color: red }") file)
           _ Hnd).
  right. left.
Defined.

Lemma activeFileContent_ext (s s' : App) :
  files s = files s' → activeFile s = activeFile s' →
  activeFileContent s = activeFileContent s'.
Proof. intros Hfiles Hactive. unfold activeFileContent. by rewrite Hfiles, Hactive. Qed.

(** What [handleRenameFile] does once its two checks pass. *)
Lemma handleRenameFile_proceeds (oldName newName : jsstring) (s : App) :
  trim newName ≠ [] →
  trim newName ≠ oldName →
  trim newName ∉ name <$> files s →
  files (handleRenameFile oldName newName s)
  = (λ f, if decide (name f = oldName)
          then mkFile (trim newName) (content f) (type f) else f) <$> files s
  ∧ activeFile (handleRenameFile oldName newName s)
    = (if bool_decide (activeFile s = Some oldName)
       then Some (trim newName) else activeFile s)
  ∧ renamingFile (handleRenameFile oldName newName s) = None.
Proof.
  intros Hne Hold Hfresh%some_name_false. unfold handleRenameFile.
  rewrite (proj2 (is_empty_false _) Hne), (bool_decide_eq_false_2 _ Hold), Hfresh.
  simpl. by destruct (bool_decide (activeFile s = Some oldName)).
Qed.

Lemma rename_inj (names : list jsstring) (oldName newName x y : jsstring) :
  newName ∉ names → x ∈ names → y ∈ names →
  (if decide (x = oldName) then newName else x)
  = (if decide (y = oldName) then newName else y) →
  x = y.
Proof.
  intros Hfresh Hx Hy.
  destruct (decide (x = oldName)), (decide (y = oldName)); congruence.
Qed.

(** X10: a rename that passes the checks changes names only: the files
    keep their order and their contents, no file is called [oldName] any
    more, a file that was is now called by the trimmed new name, which has
    no white space at either end, the active file follows the rename, and
    the rename box closes. *)
Theorem handleRenameFile_renames (oldName newName : jsstring) (s : App) :
  trim newName ≠ [] →
  trim newName ≠ oldName →
  trim newName ∉ name <$> files s →
  name <$> files (handleRenameFile oldName newName s)
  = (λ n, if decide (n = oldName) then trim newName else n) <$> (name <$> files s)
  ∧ content <$> files (handleRenameFile oldName newName s) = content <$> files s
  ∧ (oldName ∉ name <$> files (handleRenameFile oldName newName s))
  ∧ (oldName ∈ name <$> files s →
     trim newName ∈ name <$> files (handleRenameFile oldName newName s))
  ∧ (∀ c, head (trim newName) = Some c → is_white_space c = false)
  ∧ (∀ c, last (trim newName) = Some c → is_white_space c = false)
  ∧ activeFile (handleRenameFile oldName newName s)
    = (if bool_decide (activeFile s = Some oldName)
       then Some (trim newName) else activeFile s)
  ∧ renamingFile (handleRenameFile oldName newName s) = None.
Proof.
  intros Hne Hold Hfresh.
  destruct (handleRenameFile_proceeds oldName newName s Hne Hold Hfresh)
    as (Hfiles & Hactive & Hrenaming).
  destruct (trim_spec newName) as (_ & _ & _ & _ & _ & Hhead & Hlast).
  rewrite Hfiles, names_rename. split_and!; try done.
  - rewrite <- !list_fmap_compose. apply list_fmap_ext. intros i f _.
    unfold compose. by destruct (decide (name f = oldName)).
  - intros (n & Hn & _)%list_elem_of_fmap.
    destruct (decide (n = oldName)); congruence.
  - intros Hin. apply list_elem_of_fmap. exists oldName. by rewrite decide_True.
Qed.

Lemma handleRenameFile_renames_witness :
  trim (str " main.css ") ≠ []
  ∧ name <$> files (handleRenameFile (str "style.css") (str " main.css ")
                      (typing [] sample_files))
    = [str "index.html"; str "main.css"; content_name].
Proof.
  assert (Hne : trim (str " main.css ") ≠ []) by (vm_compute; discriminate).
  split; [exact Hne|].
  etransitivity;
    [refine (proj1 (handleRenameFile_renames (str "style.css") (str " main.css ")
                      (typing [] sample_files) Hne _ _))|].
  - vm_compute. discriminate.
  - apply (bool_decide_unpack _). vm_compute. exact I.
  - vm_compute. reflexivity.
Defined.

(** X11: renaming never changes what the editor shows, provided the
    active file, if any, is a file of the store. *)
Theorem rename_keeps_shown_content (oldName newName : jsstring) (s : App) :
  (∀ active, activeFile s = Some active → active ∈ name <$> files s) →
  activeFileContent (handleRenameFile oldName newName s) = activeFileContent s.
Proof.
  intros Hvalid.
  destruct (decide (trim newName = [])) as [Hempty|Hne].
  { apply activeFileContent_ext; unfold handleRenameFile; by rewrite Hempty. }
  destruct (decide (trim newName = oldName)) as [Hsame|Hold].
  { apply activeFileContent_ext; unfold handleRenameFile;
      by rewrite (bool_decide_eq_true_2 _ Hsame), orb_true_r. }
  destruct (decide (trim newName ∈ name <$> files s)) as [Htaken|Hfresh].
  { apply some_name in Htaken.
    apply activeFileContent_ext; unfold handleRenameFile;
      rewrite (proj2 (is_empty_false _) Hne), (bool_decide_eq_false_2 _ Hold), Htaken;
      done. }
  destruct (handleRenameFile_proceeds oldName newName s Hne Hold Hfresh)
    as (Hfiles & Hactive & _).
  destruct (activeFile s) as [active|] eqn:Hs.
  2: { rewrite !activeFileContent_none; [done|done|].
       rewrite Hactive. by rewrite bool_decide_eq_false_2. }
  destruct (first_named _ _ (Hvalid active eq_refl))
    as (l1 & f & l2 & Hsplit & Hf & Hl1).
  subst active. rewrite (activeFileContent_first s l1 l2 f) by done.
  set (g := λ f : FileNode, if decide (name f = oldName)
                            then mkFile (trim newName) (content f) (type f) else f)
    in Hfiles.
  assert (Hname : ∀ h, name (g h) = if decide (name h = oldName)
                                    then trim newName else name h).
  { intros h. unfold g. by destruct (decide (name h = oldName)). }
  rewrite (activeFileContent_first _ (g <$> l1) (g <$> l2) (g f)).
  - unfold g. by destruct (decide (name f = oldName)).
  - by rewrite Hfiles, Hsplit, fmap_app, fmap_cons.
  - rewrite Hactive, Hname. case_bool_decide as Heq.
    + injection Heq as Heq. by rewrite decide_True.
    + rewrite decide_False; [done|congruence].
  - apply Forall_fmap. rewrite Forall_forall in Hl1. apply Forall_forall.
    intros h Hh. simpl. rewrite !Hname. intros Heq.
    apply (Hl1 h Hh).
    apply (rename_inj (name <$> files s) oldName (trim newName)); try done.
    + rewrite Hsplit. apply list_elem_of_fmap_2. apply elem_of_app. by left.
    + by apply Hvalid.
Qed.

Lemma rename_keeps_shown_content_witness :
  activeFileContent
    (handleRenameFile (str "style.css") (str "main.css")
       (setActiveFile (Some (str "style.css")) (typing [] sample_files)))
  = str "p { color: red }".
Proof.
  etransitivity; [apply rename_keeps_shown_content|vm_compute; reflexivity].
  intros active [= <-]. apply (bool_decide_unpack _). vm_compute. exact I.
Defined.

(** X12: adding a file under a name that is not empty and not in use
    puts an empty file of that name at the end of the store, keeps the
    others, and opens the new file, empty, in the editor. *)
Theorem handleAddNewFile_fresh (fileName : jsstring) (s : App) :
  fileName ≠ [] →
  fileName ∉ name <$> files s →
  files (handleAddNewFile (Some fileName) s) = files s ++ [mkFile fileName [] file]
  ∧ activeFile (handleAddNewFile (Some fileName) s) = Some fileName
  ∧ activeFileContent (handleAddNewFile (Some fileName) s) = []
  ∧ alerts (handleAddNewFile (Some fileName) s) = alerts s.
Proof.
  intros Hne Hfresh. pose proof Hfresh as Hsome%some_name_false.
  unfold handleAddNewFile. rewrite (proj2 (is_empty_false _) Hne), Hsome. simpl.
  split_and!; try done.
  apply (activeFileContent_first _ (files s) [] (mkFile fileName [] file)); [done..|].
  apply Forall_forall. intros g Hg Heq. apply Hfresh.
  simpl in Heq. rewrite <- Heq. by apply list_elem_of_fmap_2.
Qed.

Lemma handleAddNewFile_fresh_witness :
  (str "about.html" ∉ name <$> files (typing [] sample_files))
  ∧ name <$> files (handleAddNewFile (Some (str "about.html")) (typing [] sample_files))
    = [str "index.html"; str "style.css"; content_name; str "about.html"].
Proof.
  assert (Hfresh : str "about.html" ∉ name <$> files (typing [] sample_files)).
  { apply (bool_decide_unpack _). vm_compute. exact I. }
  split; [exact Hfresh|].
  rewrite (proj1 (handleAddNewFile_fresh (str "about.html") (typing [] sample_files)
                    ltac:(discriminate) Hfresh)).
  vm_compute. reflexivity.
Defined.

(** X13: in every state reached from the initial one by selecting,
    editing, adding and renaming files and by responses arriving, the names
    of the store are distinct, none is empty, and the active file, if there
    is one, is a file of the store. *)
Theorem reachable_store_invariant (innerWidth : Q) (s : App) :
  reachable innerWidth s →
  NoDup (name <$> files s)
  ∧ ([] ∉ name <$> files s)
  ∧ (∀ active, activeFile s = Some active → active ∈ name <$> files s).
Proof.
  induction 1 as [|s a _ (Hnd & Hne & Hactive) Hoffered].
  { split_and!; [constructor|by intros ?%elem_of_nil|done]. }
  split_and!.
  - destruct a; simpl;
      auto using handleAddNewFile_NoDup, handleRenameFile_NoDup,
        handleSendMessage_resume_NoDup, handleContentChange_NoDup.
  - destruct a as [n|c|answer|oldName newName|response]; simpl.
    + done.
    + unfold handleContentChange. destruct (activeFile s) as [active|]; [|done].
      destruct (is_empty active); [done|]. simpl. by rewrite names_set_content.
    + rewrite handleAddNewFile_files. destruct answer as [fileName|]; [|done].
      destruct (is_empty fileName) eqn:Hempty; [done|]. simpl.
      destruct (some _ (files s)); [done|].
      rewrite fmap_app. simpl. apply not_elem_of_app. split; [done|].
      rewrite list_elem_of_singleton. intros <-. done.
    + rewrite handleRenameFile_files.
      destruct (is_empty (trim newName)) eqn:Hempty; [done|]. simpl.
      destruct (bool_decide _ || some _ (files s)); [done|].
      rewrite names_rename. intros (n & Hn & Hin)%list_elem_of_fmap.
      destruct (decide (n = oldName)); [by rewrite <- Hn in Hempty|congruence].
    + destruct response as [text|error]; [|done]. simpl.
      rewrite fmap_app. apply not_elem_of_app. split.
      * intros (f & Hf & [_ Hin]%list_elem_of_filter)%list_elem_of_fmap.
        apply Hne, list_elem_of_fmap. eauto.
      * simpl. rewrite list_elem_of_singleton. discriminate.
  - destruct a as [n|c|answer|oldName newName|response]; simpl.
    + by intros active [= <-].
    + unfold handleContentChange. destruct (activeFile s) as [active|] eqn:Hs.
      2: { intros a Ha. congruence. }
      destruct (is_empty active).
      { intros a Ha. apply Hactive. congruence. }
      simpl. rewrite names_set_content. intros a Ha. apply Hactive. congruence.
    + unfold handleAddNewFile. destruct answer as [fileName|]; [|done].
      destruct (is_empty fileName); [done|].
      destruct (some _ (files s)); [done|]. simpl.
      intros active [= <-]. rewrite fmap_app. apply elem_of_app. right. by left.
    + destruct (decide (trim newName = [])) as [Hempty|Hnonempty].
      { unfold handleRenameFile. by rewrite Hempty. }
      destruct (decide (trim newName = oldName)) as [Hsame|Hold].
      { unfold handleRenameFile.
        by rewrite (bool_decide_eq_true_2 _ Hsame), orb_true_r. }
      destruct (decide (trim newName ∈ name <$> files s)) as [Htaken|Hfresh].
      { apply some_name in Htaken. unfold handleRenameFile.
        by rewrite (proj2 (is_empty_false _) Hnonempty),
          (bool_decide_eq_false_2 _ Hold), Htaken. }
      destruct (handleRenameFile_proceeds oldName newName s Hnonempty Hold Hfresh)
        as (Hfiles & Hact & _).
      rewrite Hfiles, Hact, names_rename. intros active.
      case_bool_decide as Heq.
      * intros [= <-]. apply list_elem_of_fmap. exists oldName.
        rewrite decide_True by done. split; [done|]. by apply Hactive.
      * intros Hs. apply list_elem_of_fmap. exists active.
        rewrite decide_False by congruence. split; [done|]. by apply Hactive.
    + destruct response as [text|error]; [|done]. simpl.
      intros active [= <-]. rewrite fmap_app. apply elem_of_app. right. by left.
Qed.

Lemma reachable_store_invariant_witness :
  reachable 1280 (act (act (initial 1280) (AddFile (Some (str "a.js"))))
                    (Rename (str "a.js") (str " b.js")))
  ∧ NoDup (name <$> files (act (act (initial 1280) (AddFile (Some (str "a.js"))))
                             (Rename (str "a.js") (str " b.js")))).
Proof.
  assert (Hreach : reachable 1280
            (act (act (initial 1280) (AddFile (Some (str "a.js"))))
               (Rename (str "a.js") (str " b.js")))).
  { apply reachable_act; [apply reachable_act; [apply reachable_initial|exact I]|].
    simpl. apply (bool_decide_unpack _). vm_compute. exact I. }
  split; [exact Hreach|].
  exact (proj1 (reachable_store_invariant 1280 _ Hreach)).
Defined.

(** ** The preview *)

Lemma find_skip {A} (P : A → Prop) `{!∀ x, Decision (P x)} (l1 l2 : list A) (x : A) :
  ¬ P x → find P (l1 ++ x :: l2) = find P (l1 ++ l2).
Proof.
  intros Hx. induction l1 as [|y l1 IH]; simpl.
  - by rewrite decide_False.
  - by rewrite IH.
Qed.

Lemma find_filtered_out {A} (P : A → Prop) `{!∀ x, Decision (P x)} (l : list A) :
  find P (filter (λ x, ¬ P x) l) = None.
Proof.
  apply find_None, Forall_forall. by intros x [? _]%list_elem_of_filter.
Qed.

Lemma find_after_none {A} (P : A → Prop) `{!∀ x, Decision (P x)} (l k : list A) :
  find P l = None → find P (l ++ k) = find P k.
Proof.
  induction l as [|y l IH]; simpl; [done|]. by case_decide.
Qed.

(** X14: once a response has arrived, the preview is built from it: the
    file it starts from is the new [content] file, whatever the store held
    before, and the style sheets and scripts are those of the store. *)
Theorem preview_follows_response (text : jsstring) (s : App) :
  htmlFile (files (handleSendMessage_resume (Success text) s))
  = Some (mkFile content_name text file)
  ∧ cssFiles (files (handleSendMessage_resume (Success text) s)) = cssFiles (files s)
  ∧ jsFiles (files (handleSendMessage_resume (Success text) s)) = jsFiles (files s)
  ∧ (DOLLAR ∉ styles (files s) → DOLLAR ∉ scripts (files s) →
     previewContent (files (handleSendMessage_resume (Success text) s))
     = insert_before (str "</body>")
         (insert_before (str "</head>") text (styles (files s)))
         (scripts (files s))).
Proof.
  assert (Hhtml : htmlFile (files (handleSendMessage_resume (Success text) s))
                  = Some (mkFile content_name text file)).
  { simpl. unfold htmlFile. rewrite find_after_none.
    - by rewrite (find_first (λ f, name f = content_name) [] []
                    (mkFile content_name text file)).
    - apply (find_filtered_out (λ f, name f = content_name)). }
  assert (Hkeep : ∀ ext : jsstring, endsWith content_name ext = false →
    filter (λ f, endsWith (name f) ext = true)
      (files (handleSendMessage_resume (Success text) s))
    = filter (λ f, endsWith (name f) ext = true) (files s)).
  { intros ext Hext. simpl. rewrite filter_app, list_filter_filter.
    rewrite filter_cons_False, filter_nil, app_nil_r by (simpl; congruence).
    apply list_filter_iff. intros f. split; [tauto|]. intros Hf. split; [done|].
    intros Hname. rewrite Hname in Hf. congruence. }
  assert (Hcss : cssFiles (files (handleSendMessage_resume (Success text) s))
                 = cssFiles (files s)) by (by apply Hkeep).
  assert (Hjs : jsFiles (files (handleSendMessage_resume (Success text) s))
                = jsFiles (files s)) by (by apply Hkeep).
  split_and!; try done. intros Hstyles Hscripts.
  rewrite (previewContent_composed _ _ Hhtml); unfold styles, scripts;
    rewrite ?Hcss, ?Hjs; done.
Qed.

(** X15: a file that is not named [content] and whose name ends with none
    of [.html], [.css] and [.js] has no influence on the preview. *)
Theorem preview_ignores_other_files (l1 l2 : list FileNode) (f : FileNode) :
  name f ≠ content_name →
  endsWith (name f) (str ".html") = false →
  endsWith (name f) (str ".css") = false →
  endsWith (name f) (str ".js") = false →
  previewContent (l1 ++ f :: l2) = previewContent (l1 ++ l2).
Proof.
  intros Hname Hhtml Hcss Hjs.
  assert (htmlFile (l1 ++ f :: l2) = htmlFile (l1 ++ l2)) as Hfile.
  { unfold htmlFile. rewrite !find_skip by congruence. done. }
  assert (cssFiles (l1 ++ f :: l2) = cssFiles (l1 ++ l2)) as Hstyle.
  { unfold cssFiles. rewrite !filter_app, filter_cons_False by congruence. done. }
  assert (jsFiles (l1 ++ f :: l2) = jsFiles (l1 ++ l2)) as Hscript.
  { unfold jsFiles. rewrite !filter_app, filter_cons_False by congruence. done. }
  unfold previewContent, styles, scripts. by rewrite Hfile, Hstyle, Hscript.
Qed.

Lemma preview_ignores_other_files_witness :
  name (mkFile (str "notes.txt") (str "to do") file) ≠ content_name
  ∧ previewContent (sample_files ++ [mkFile (str "notes.txt") (str "to do") file])
    = previewContent sample_files.
Proof.
  assert (Hname : name (mkFile (str "notes.txt") (str "to do") file) ≠ content_name).
  { vm_compute. discriminate. }
  split; [exact Hname|].
  rewrite <- (app_nil_r sample_files) at 2.
  apply (preview_ignores_other_files sample_files []); [exact Hname|reflexivity..].
Defined.

Lemma insert_before_absent (tag doc : jsstring) :
  includes doc tag = false → insert_before tag doc [] = doc.
Proof.
  unfold includes, insert_before. destruct (indexOf doc tag); [done|].
  intros _. apply app_nil_r.
Qed.

(** X16: with no style sheet and no script in the store, a document that
    has neither [</head>] nor [</body>] is previewed as it is. *)
Theorem preview_of_plain_document (fs : list FileNode) (h : FileNode) :
  htmlFile fs = Some h →
  cssFiles fs = [] →
  jsFiles fs = [] →
  includes (content h) (str "</head>") = false →
  includes (content h) (str "</body>") = false →
  previewContent fs = content h.
Proof.
  intros Hh Hcss Hjs Hhead Hbody.
  rewrite (previewContent_composed fs h Hh); unfold styles, scripts;
    rewrite ?Hcss, ?Hjs; simpl; [|by intros ?%elem_of_nil..].
  by rewrite (insert_before_absent _ _ Hhead), (insert_before_absent _ _ Hbody).
Qed.

Lemma preview_of_plain_document_witness :
  htmlFile [mkFile content_name (str "<p>hi</p>") file]
  = Some (mkFile content_name (str "<p>hi</p>") file)
  ∧ previewContent [mkFile content_name (str "<p>hi</p>") file] = str "<p>hi</p>".
Proof.
  split; [reflexivity|].
  apply (preview_of_plain_document _ (mkFile content_name (str "<p>hi</p>") file));
    vm_compute; reflexivity.
Defined.

(** ** The editor's language and the escaping of markup *)

Lemma split_nonempty (s : jsstring) (sep : N) : split s sep ≠ [].
Proof.
  destruct s as [|c s]; simpl; [done|].
  destruct (c =? sep)%N; [done|]. by destruct (split s sep).
Qed.

Lemma split_no_sep (s : jsstring) (sep : N) : sep ∉ s → split s sep = [s].
Proof.
  induction s as [|c s IH]; [done|].
  intros [Hc Hs]%not_elem_of_cons. simpl.
  assert ((c =? sep)%N = false) as -> by (apply N.eqb_neq; congruence).
  by rewrite IH.
Qed.

Lemma split_snoc (s e : jsstring) (sep : N) :
  sep ∉ e → split (s ++ sep :: e) sep = split s sep ++ [e].
Proof.
  intros He. induction s as [|c s IH]; simpl.
  - by rewrite N.eqb_refl, split_no_sep.
  - destruct (c =? sep)%N; rewrite IH; [done|].
    pose proof (split_nonempty s sep). by destruct (split s sep).
Qed.

Lemma last_separator (s : jsstring) (sep : N) :
  sep ∉ s ∨ ∃ p e, s = p ++ sep :: e ∧ sep ∉ e.
Proof.
  induction s as [|c s [IH|(p & e & -> & He)]].
  - left. by intros ?%elem_of_nil.
  - destruct (decide (c = sep)) as [->|Hc].
    + right. by exists [], s.
    + left. by apply not_elem_of_cons.
  - right. by exists (c :: p), e.
Qed.

(** The last segment of [split] is what follows the last separator, or
    the whole string when there is none. *)
Lemma last_split (s : jsstring) (sep : N) :
  ∃ e, last (split s sep) = Some e
       ∧ (sep ∉ e) ∧ (s = e ∨ ∃ p, s = p ++ sep :: e).
Proof.
  destruct (last_separator s sep) as [Hs|(p & e & -> & He)].
  - exists s. rewrite split_no_sep by done. eauto.
  - exists e. rewrite split_snoc, last_snoc by done. eauto.
Qed.

Lemma last_split_suffix (s x : jsstring) (sep : N) :
  sep ∉ x → endsWith s (sep :: x) = true → last (split s sep) = Some x.
Proof.
  intros Hx [p ->]%bool_decide_eq_true. by rewrite split_snoc, last_snoc.
Qed.

Lemma endsWith_nonempty (s x : jsstring) (c : N) :
  endsWith s (c :: x) = true → is_empty s = false.
Proof. intros [p ->]%bool_decide_eq_true. by destruct p. Qed.

(** X17: the language of a file is read off what follows the last dot of
    its name, or off the whole name when it has no dot. *)
Theorem language_by_extension (fileName : jsstring) :
  fileName ≠ [] →
  ∃ extension,
    (DOT ∉ extension)
    ∧ (fileName = extension ∨ ∃ p, fileName = p ++ DOT :: extension)
    ∧ language (Some fileName)
      = if bool_decide (extension ∈ [str "js"; str "jsx"; str "ts"; str "tsx"])
        then javascript
        else if bool_decide (extension = str "css") then css
        else if bool_decide (extension = str "html") then html
        else unknown.
Proof.
  intros Hne. destruct (last_split fileName DOT) as (e & He & Hdot & Hshape).
  exists e. split_and!; [done..|].
  unfold language. rewrite (proj2 (is_empty_false _) Hne), He.
  assert (Hsome : ∀ x : jsstring, Some e = Some x ↔ e = x) by (split; congruence).
  assert (bool_decide (Some e = Some (str "js") ∨ Some e = Some (str "jsx")
                       ∨ Some e = Some (str "ts") ∨ Some e = Some (str "tsx"))
          = bool_decide (e ∈ [str "js"; str "jsx"; str "ts"; str "tsx"])) as ->.
  { apply bool_decide_ext. rewrite !elem_of_cons, elem_of_nil, !Hsome. tauto. }
  rewrite (bool_decide_ext _ _ (Hsome (str "css"))).
  by rewrite (bool_decide_ext _ _ (Hsome (str "html"))).
Qed.

Lemma language_by_extension_witness :
  str "main.test.tsx" ≠ []
  ∧ ∃ extension,
      (DOT ∉ extension)
      ∧ (str "main.test.tsx" = extension
         ∨ ∃ p, str "main.test.tsx" = p ++ DOT :: extension)
      ∧ language (Some (str "main.test.tsx"))
        = if bool_decide (extension ∈ [str "js"; str "jsx"; str "ts"; str "tsx"])
          then javascript
          else if bool_decide (extension = str "css") then css
          else if bool_decide (extension = str "html") then html
          else unknown.
Proof.
  assert (Hne : str "main.test.tsx" ≠ []) by discriminate.
  split; [exact Hne|]. exact (language_by_extension (str "main.test.tsx") Hne).
Defined.

(** X18: the editor and the preview agree on what a file is: a file the
    preview takes for a style sheet, a script or an HTML file by the end of
    its name is highlighted as CSS, JavaScript or HTML; the [content] file,
    like every other name without a dot that is not itself an extension,
    is highlighted as nothing. *)
Theorem language_agrees_with_preview (fileName : jsstring) :
  (endsWith fileName (str ".html") = true → language (Some fileName) = html)
  ∧ (endsWith fileName (str ".css") = true → language (Some fileName) = css)
  ∧ (endsWith fileName (str ".js") = true → language (Some fileName) = javascript)
  ∧ (DOT ∉ fileName →
     fileName ∉ [str "js"; str "jsx"; str "ts"; str "tsx"; str "css"; str "html"] →
     language (Some fileName) = unknown)
  ∧ language (Some content_name) = unknown.
Proof.
  assert (Hby : ∀ x : jsstring, DOT ∉ x → endsWith fileName (DOT :: x) = true →
    language (Some fileName)
    = if bool_decide (Some x = Some (str "js") ∨ Some x = Some (str "jsx")
                      ∨ Some x = Some (str "ts") ∨ Some x = Some (str "tsx"))
      then javascript
      else if bool_decide (Some x = Some (str "css")) then css
      else if bool_decide (Some x = Some (str "html")) then html
      else unknown).
  { intros x Hx Hends. unfold language.
    by rewrite (endsWith_nonempty _ _ _ Hends), (last_split_suffix _ _ _ Hx Hends). }
  split_and!.
  - intros Hends. rewrite (Hby (str "html")); [done| |done].
    apply (bool_decide_unpack _). vm_compute. exact I.
  - intros Hends. rewrite (Hby (str "css")); [done| |done].
    apply (bool_decide_unpack _). vm_compute. exact I.
  - intros Hends. rewrite (Hby (str "js")); [done| |done].
    apply (bool_decide_unpack _). vm_compute. exact I.
  - intros Hdot Hnot. unfold language.
    destruct (is_empty fileName); [done|]. rewrite split_no_sep by done. simpl.
    rewrite !not_elem_of_cons in Hnot.
    destruct Hnot as (? & ? & ? & ? & ? & ? & _).
    rewrite !bool_decide_eq_false_2; [done|congruence..|].
    intros [?|[?|[?|?]]]; congruence.
  - vm_compute. reflexivity.
Qed.

Lemma replace_every_cons (c : N) (replacement s : jsstring) (x : N) :
  replace_every c replacement (x :: s)
  = (if (x =? c)%N then replacement else [x]) ++ replace_every c replacement s.
Proof. done. Qed.

Lemma replace_every_app (c : N) (replacement s1 s2 : jsstring) :
  replace_every c replacement (s1 ++ s2)
  = replace_every c replacement s1 ++ replace_every c replacement s2.
Proof. apply bind_app. Qed.

Lemma escape_unit_cases (c : N) :
  (c = AMPERSAND ∧ escape_unit c = [38; 97; 109; 112; 59]%N)
  ∨ (c = LT ∧ escape_unit c = [38; 108; 116; 59]%N)
  ∨ (c = GT ∧ escape_unit c = [38; 103; 116; 59]%N)
  ∨ (c ≠ AMPERSAND ∧ c ≠ LT ∧ c ≠ GT ∧ escape_unit c = [c]).
Proof.
  unfold escape_unit.
  destruct (N.eqb_spec c AMPERSAND) as [->|?]; [by left|].
  destruct (N.eqb_spec c LT) as [->|?]; [by right; left|].
  destruct (N.eqb_spec c GT) as [->|?]; [by right; right; left|].
  by right; right; right.
Qed.

(** The three replacements in a row amount to one pass that maps every
    code unit to its entity. *)
Lemma escapeMarkup_cons (c : N) (code : jsstring) :
  escapeMarkup (c :: code) = escape_unit c ++ escapeMarkup code.
Proof.
  unfold escapeMarkup. rewrite replace_every_cons, !replace_every_app.
  f_equal. unfold escape_unit.
  destruct (c =? AMPERSAND)%N; cbv iota; [reflexivity|].
  rewrite replace_every_cons.
  destruct (c =? LT)%N; cbv iota; [reflexivity|].
  change (replace_every LT (str "&lt;") []) with (@nil N). rewrite app_nil_r.
  rewrite replace_every_cons.
  change (replace_every GT (str "&gt;") []) with (@nil N). rewrite app_nil_r.
  by destruct (c =? GT)%N.
Qed.

(** X19: the escaped text holds no [<] and no [>], so it brings no tag
    into the highlighted pane; text without [&], [<] and [>] is left as it
    is. *)
Theorem escapeMarkup_has_no_tags (code : jsstring) :
  (LT ∉ escapeMarkup code)
  ∧ (GT ∉ escapeMarkup code)
  ∧ (AMPERSAND ∉ code → LT ∉ code → GT ∉ code → escapeMarkup code = code).
Proof.
  induction code as [|c code (IHlt & IHgt & IHid)].
  { split_and!; [by intros ?%elem_of_nil..|done]. }
  rewrite escapeMarkup_cons. split_and!.
  - apply not_elem_of_app. split; [|done].
    destruct (escape_unit_cases c) as [[_ ->]|[[_ ->]|[[_ ->]|(_ & ? & _ & ->)]]];
      rewrite ?not_elem_of_cons; split_and?; (done || by intros ?%elem_of_nil).
  - apply not_elem_of_app. split; [|done].
    destruct (escape_unit_cases c) as [[_ ->]|[[_ ->]|[[_ ->]|(_ & _ & ? & ->)]]];
      rewrite ?not_elem_of_cons; split_and?; (done || by intros ?%elem_of_nil).
  - intros [? ?]%not_elem_of_cons [? ?]%not_elem_of_cons [? ?]%not_elem_of_cons.
    rewrite IHid by done.
    destruct (escape_unit_cases c) as [[? _]|[[? _]|[[? _]|(_ & _ & _ & ->)]]];
      [congruence..|done].
Qed.

(** X20: escaping loses nothing: two texts with the same escaped form are
    the same text. *)
Theorem escapeMarkup_inj (code1 code2 : jsstring) :
  escapeMarkup code1 = escapeMarkup code2 → code1 = code2.
Proof.
  revert code2. induction code1 as [|c1 code1 IH]; intros [|c2 code2].
  - done.
  - rewrite escapeMarkup_cons. change (escapeMarkup []) with (@nil N).
    destruct (escape_unit_cases c2) as [[_ ->]|[[_ ->]|[[_ ->]|(_ & _ & _ & ->)]]];
      discriminate.
  - rewrite escapeMarkup_cons. change (escapeMarkup []) with (@nil N).
    destruct (escape_unit_cases c1) as [[_ ->]|[[_ ->]|[[_ ->]|(_ & _ & _ & ->)]]];
      discriminate.
  - rewrite !escapeMarkup_cons.
    destruct (escape_unit_cases c1)
      as [[-> ->]|[[-> ->]|[[-> ->]|(? & ? & ? & ->)]]];
    destruct (escape_unit_cases c2)
      as [[-> ->]|[[-> ->]|[[-> ->]|(? & ? & ? & ->)]]];
    simpl; intros Heq; try discriminate Heq;
    try (injection Heq as Heq; f_equal; by apply IH);
    injection Heq as Hc Hrest;
    try (unfold AMPERSAND, LT, GT in *; congruence);
    f_equal; [done|by apply IH].
Qed.

Lemma escapeMarkup_inj_witness :
  escapeMarkup (str "a<b") = escapeMarkup ([97; 60; 98]%N) ∧ str "a<b" = [97; 60; 98]%N.
Proof.
  assert (Heq : escapeMarkup (str "a<b") = escapeMarkup ([97; 60; 98]%N)) by reflexivity.
  split; [exact Heq|]. exact (escapeMarkup_inj _ _ Heq).
Defined.

(** ** Dragging and the console *)

Lemma Math_max_above (a b : Q) : (a <= b)%Q → Math_max a b = b.
Proof. intros Hle%Qle_bool_iff. unfold Math_max. by rewrite Hle. Qed.

(** X21: a drag of the explorer divider that stays to the right of where
    the button went down widens the explorer, from 200 or more, by the sum
    of all the offsets reported on the way, not by the last offset. *)
Theorem explorer_gesture_adds_offsets (startX startY : Q) (moves : list (Q * Q))
    (s : App) :
  (200 <= explorerWidth s)%Q →
  Forall (λ client, (startX <= client.1)%Q) moves →
  (explorerWidth (gesture ExplorerDivider startX startY moves s)
   == explorerWidth s + Qsum ((λ client, client.1 - startX) <$> moves))%Q.
Proof.
  intros Hwide Hright. revert s Hwide.
  induction Hright as [|client moves Hclient _ IH]; intros s Hwide.
  - simpl. lra.
  - change (gesture ExplorerDivider startX startY (client :: moves) s)
      with (gesture ExplorerDivider startX startY moves
              (handleMouseMove ExplorerDivider startX startY s client)).
    assert (Hstep : explorerWidth (handleMouseMove ExplorerDivider startX startY s client)
                    = (explorerWidth s + (client.1 - startX))%Q).
    { simpl in *. apply Math_max_above. lra. }
    simpl in Hclient. rewrite IH by (rewrite Hstep; lra). rewrite Hstep.
    rewrite fmap_cons.
    change (Qsum ((client.1 - startX)%Q :: ?l)) with ((client.1 - startX) + Qsum l)%Q.
    lra.
Qed.

Lemma explorer_gesture_adds_offsets_witness :
  (200 <= explorerWidth (initial 1280))%Q
  ∧ (explorerWidth (gesture ExplorerDivider 300 0 [(301, 0); (302, 0); (303, 0)]%Q
                      (initial 1280)) == 262)%Q.
Proof.
  assert (Hwide : (200 <= explorerWidth (initial 1280))%Q) by (vm_compute; discriminate).
  split; [exact Hwide|].
  rewrite (explorer_gesture_adds_offsets 300 0 [(301, 0); (302, 0); (303, 0)]%Q
             (initial 1280) Hwide).
  - vm_compute. reflexivity.
  - repeat constructor; vm_compute; discriminate.
Defined.

(** X22: after a toggle of the console and after a failed send the
    console height is 192 when the console is marked visible and 0 when it
    is not; on a state like that, two toggles in a row change nothing. *)
Theorem toggleConsole_twice (s : App) :
  consoleHeight (toggleConsole s)
  = (if isConsoleVisible (toggleConsole s) then 192 else 0)%Q
  ∧ (∀ error,
       consoleHeight (handleSendMessage_resume (Failure error) s)
       = (if isConsoleVisible (handleSendMessage_resume (Failure error) s)
          then 192 else 0)%Q)
  ∧ (consoleHeight s = (if isConsoleVisible s then 192 else 0)%Q →
     toggleConsole (toggleConsole s) = s).
Proof.
  split_and!.
  - unfold toggleConsole. simpl. by destruct (isConsoleVisible s).
  - done.
  - destruct s as [? ? ? ? ? ? ? ? ? height visible ?]. simpl. intros ->.
    unfold toggleConsole. simpl. by destruct visible.
Qed.

(** ** Escape in the rename box *)

Lemma trim_fixed (s : jsstring) :
  (∀ c, head s = Some c → is_white_space c = false) →
  (∀ c, last s = Some c → is_white_space c = false) →
  trim s = s.
Proof.
  intros Hhead Hlast.
  assert (Hstart : ∀ t : jsstring,
    (∀ c, head t = Some c → is_white_space c = false) → trimStart t = t).
  { intros [|c t] Ht; [done|]. simpl. by rewrite (Ht c eq_refl). }
  unfold trim, trimEnd. rewrite (Hstart s Hhead).
  rewrite Hstart; [apply reverse_involutive|].
  intros c Hc. apply Hlast. by rewrite <- head_reverse.
Qed.

(** X23: Escape in the rename box calls [handleRenameFile] with the old
    name twice. For a name without white space at either end this closes
    the box and changes nothing else. For a name with white space at an
    end, which [handleAddNewFile] accepts, it is a rename to the trimmed
    name: when that name is free and not empty, no file is called by the
    old name afterwards. *)
Theorem escape_in_rename_box (fileName : jsstring) (s : App) :
  ((∀ c, head fileName = Some c → is_white_space c = false) →
   (∀ c, last fileName = Some c → is_white_space c = false) →
   handleRenameFile fileName fileName s = setRenamingFile None s)
  ∧ (trim fileName ≠ fileName →
     trim fileName ≠ [] →
     trim fileName ∉ name <$> files s →
     fileName ∉ name <$> files (handleRenameFile fileName fileName s)).
Proof.
  split.
  - intros Hhead Hlast. unfold handleRenameFile.
    rewrite (trim_fixed fileName Hhead Hlast).
    by rewrite bool_decide_eq_true_2, orb_true_r.
  - intros Hold Hne Hfresh.
    destruct (handleRenameFile_proceeds fileName fileName s Hne Hold Hfresh)
      as (Hfiles & _). rewrite Hfiles, names_rename.
    intros (n & Hn & _)%list_elem_of_fmap.
    destruct (decide (n = fileName)); congruence.
Qed.
